(** * ascii-art-generator: a shallow embedding of [aag.py]

    The script loads an image, resizes it to a target width, converts it to
    greyscale, maps every pixel to one character of an 11-symbol ramp,
    reflows the characters into rows and writes the rows to a text file.

    The embedding follows the script function by function.  Python values
    that may be [None] are options, exceptions are an explicit result type,
    the logger and the file system are threaded through a small state and
    exception monad, and the two libraries the script calls (PIL and the
    operating system) are an interface [Env] the program is parameterised
    over.  Floats are IEEE binary64 numbers, computed with the Standard
    Library's [SpecFloat].  The start of the module is modelled by its
    outcomes: what the argument parser does with the command line, and
    whether the logging module accepts the configured level. *)

From Stdlib Require Import ZArith List String Ascii Bool Lia.
From Stdlib Require Import Floats.SpecFloat.
Import ListNotations.

Local Open Scope Z_scope.

(** ** Python builtins used by the script *)

Module Py.

(** The exception classes the script can meet.  All of them derive from
    [Exception]; [SystemExit] does not and is an outcome of its own (see
    [outcome] below).  [OSError] stands for every [OSError] that has no
    constructor of its own here (PermissionError, PIL's
    UnidentifiedImageError, ...). *)
Inductive exn : Set :=
| ZeroDivisionError
| OverflowError
| ValueError
| TypeError
| AttributeError
| IndexError
| OSError
| FileNotFoundError
| FileExistsError
| NotADirectoryError
| IsADirectoryError.

Definition exn_eqb (a b : exn) : bool :=
  match a, b with
  | ZeroDivisionError, ZeroDivisionError | OverflowError, OverflowError
  | ValueError, ValueError | TypeError, TypeError
  | AttributeError, AttributeError | IndexError, IndexError
  | OSError, OSError | FileNotFoundError, FileNotFoundError
  | FileExistsError, FileExistsError
  | NotADirectoryError, NotADirectoryError
  | IsADirectoryError, IsADirectoryError => true
  | _, _ => false
  end.

(** [isinstance(e, OSError)]; [IOError] is an alias of [OSError]. *)
Definition is_OSError (e : exn) : bool :=
  match e with
  | OSError | FileNotFoundError | FileExistsError
  | NotADirectoryError | IsADirectoryError => true
  | _ => false
  end.

Definition is_FileNotFoundError (e : exn) : bool := exn_eqb e FileNotFoundError.

(** [except Exception] catches every class above. *)
Definition is_Exception (e : exn) : bool := true.

Inductive result (A : Type) : Type :=
| Ok (a : A)
| Err (e : exn).
Arguments Ok {A} a.
Arguments Err {A} e.

Definition LF : ascii := ascii_of_nat 10.
Definition newline : string := String LF EmptyString.

(** [len(s)] *)
Definition len (s : string) : Z := Z.of_nat (String.length s).

(** [l[i]] on a list: a negative index counts from the end. *)
Definition getitem {A : Type} (l : list A) (i : Z) : result A :=
  let n := Z.of_nat (List.length l) in
  let j := if i <? 0 then i + n else i in
  if (0 <=? j) && (j <? n) then
    match nth_error l (Z.to_nat j) with
    | Some x => Ok x
    | None => Err IndexError
    end
  else Err IndexError.

(** [range(start, stop, step)] as the list of its elements. *)
Definition range (start stop step : Z) : result (list Z) :=
  if step =? 0 then Err ValueError
  else
    let n :=
      if 0 <? step
      then (if start <? stop then (stop - start - 1) / step + 1 else 0)
      else (if stop <? start then (start - stop - 1) / (- step) + 1 else 0) in
    Ok (map (fun k => start + Z.of_nat k * step) (seq 0 (Z.to_nat n))).

(** Slice bounds: a negative bound counts from the end, and both are
    clamped to [0, len]. *)
Definition adjust_index (n i : Z) : Z :=
  let i' := if i <? 0 then i + n else i in
  if i' <? 0 then 0 else if n <=? i' then n else i'.

(** [s[i:j]] *)
Definition slice (s : string) (i j : Z) : string :=
  let lo := adjust_index (len s) i in
  let hi := adjust_index (len s) j in
  substring (Z.to_nat lo) (Z.to_nat (hi - lo)) s.

(** [c in s] for a one-character [c] *)
Fixpoint contains (c : ascii) (s : string) : bool :=
  match s with
  | EmptyString => false
  | String d s' => Ascii.eqb c d || contains c s'
  end.

(** [s.split(sep)] for a one-character separator: never the empty list. *)
Fixpoint split (sep : ascii) (s : string) : list string :=
  match s with
  | EmptyString => [EmptyString]
  | String c s' =>
      if Ascii.eqb c sep then EmptyString :: split sep s'
      else
        match split sep s' with
        | [] => [String c EmptyString]
        | w :: ws => String c w :: ws
        end
  end.

(** [sep.join(l)] *)
Definition join (sep : string) (l : list string) : string := String.concat sep l.

(** [l[:-1]] *)
Definition but_last {A : Type} (l : list A) : list A := removelast l.

(** [s.startswith(c)], [s.endswith(c)] for a one-character [c] *)
Definition startswith (s : string) (c : ascii) : bool :=
  match s with
  | String d _ => Ascii.eqb d c
  | EmptyString => false
  end.

Fixpoint endswith (s : string) (c : ascii) : bool :=
  match s with
  | EmptyString => false
  | String d EmptyString => Ascii.eqb d c
  | String _ s' => endswith s' c
  end.

(** [os.path.join(a, b)] of [posixpath]: an absolute [b] replaces [a]; a
    separator is inserted unless [a] is empty or already ends with one. *)
Definition os_path_join (a b : string) : string :=
  if startswith b "/"%char then b
  else if (String.eqb a EmptyString) || endswith a "/"%char then String.append a b
  else String.append a (String "/"%char b).

(** *** Floats: IEEE binary64 *)

Definition float : Set := spec_float.
Definition prec : Z := 53.
Definition emax : Z := 1024.

Definition fmul : float -> float -> float := SFmul prec emax.
Definition fsub : float -> float -> float := SFsub prec emax.

Definition is_finite (x : float) : bool :=
  match x with
  | S754_zero _ | S754_finite _ _ _ => true
  | _ => false
  end.

(** [float(k)] for an int: the nearest double, [OverflowError] past the
    largest one. *)
Definition float_of_int (k : Z) : result float :=
  let x := binary_normalize prec emax k 0 false in
  if is_finite x then Ok x else Err OverflowError.

(** [a / b] on ints (true division): the correctly rounded quotient. *)
Definition truediv (a b : Z) : result float :=
  match b with
  | Z0 => Err ZeroDivisionError
  | _ =>
      match a with
      | Z0 => Ok (S754_zero (b <? 0))
      | _ =>
          let x := SFdiv prec emax
                     (S754_finite (a <? 0) (Z.to_pos (Z.abs a)) 0)
                     (S754_finite (b <? 0) (Z.to_pos (Z.abs b)) 0) in
          if is_finite x then Ok x else Err OverflowError
      end
  end.

(** [int(x)] for a float: truncation towards zero. *)
Definition int_of_float (x : float) : result Z :=
  match x with
  | S754_zero _ => Ok 0
  | S754_finite s m e =>
      let a := if 0 <=? e then Z.pos m * 2 ^ e else Z.pos m / 2 ^ (- e) in
      Ok (if s then - a else a)
  | S754_infinity _ => Err OverflowError
  | S754_nan => Err ValueError
  end.

(** The literal [.3]: the double nearest to 3/10, 0x1.3333333333333p-2. *)
Definition float_0_3 : float := S754_finite false 5404319552844595 (-54).

End Py.
Import Py.

(** ** Data model *)

(** A pixel as [Image.getdata()] yields it: an int for a single-band image
    of integers (mode L and the like), a float for a single-band image of
    floats (mode F), a tuple of ints for a multi-band one. *)
Inductive pixel : Set :=
| Lum (v : Z)
| Flt (x : float)
| Bands (vs : list Z).

(** A decoded image: its [size] attribute, (width, height), and its pixels
    in the order [getdata()] gives them, row by row. *)
Record Image : Set := {
  size : Z * Z;
  getdata : list pixel
}.

Definition width (im : Image) : Z := fst (size im).
Definition height (im : Image) : Z := snd (size im).

(** [class Chars(Enum)]: the value of [Chars.ASCII_CHARS]. *)
Definition ASCII_CHARS : list string :=
  ["@"; "#"; "$"; "%"; "?"; "*"; "+"; ";"; ":"; ","; "."]%string.

(** [cfg]: the parsed command line, a module-level global of the script. *)
Record Config : Set := {
  log_level : string;
  image_path : string;
  output_path : string;
  output_file_name : string
}.

(** The calls made on the logger, one constructor per call site. *)
Inductive level : Set := DEBUG | INFO | ERROR.

Inductive message : Set :=
| Msg_config (c : Config)
| Msg_loading (path : string)
| Msg_unable_to_open (path : string) (e : exn)
| Msg_closing
| Msg_close_failed (e : exn)
| Msg_converting (path : string)
| Msg_new_ascii (dir file : string)
| Msg_write_failed (e : exn)
| Msg_pixels (ps : list pixel)
| Msg_ascii (s : string)
| Msg_ascii_failed (e : exn)
| Msg_greyscale_failed (e : exn)
| Msg_og_size (w h : Z)
| Msg_target_size (w h : Z)
| Msg_resize_failed (e : exn)
| Msg_creating_folder (folder : string)
| Msg_folder_failed (e : exn).

Definition log_record : Set := (level * message)%type.

(** The libraries under the script: the file system calls it makes
    ([os.path.exists], [Path.mkdir(parents=True, exist_ok=True)], opening a
    file for writing and writing a string to it) and PIL ([Image.open],
    [resize], [convert], [close]).  A call that raises may still have
    changed the file system, so every call returns the new state.
    [read_text] observes a state: the content of the regular file at a
    path, if there is one. *)
Record Env : Type := {
  FS : Type;
  os_path_exists : string -> FS -> bool;
  Path_mkdir : string -> FS -> result unit * FS;
  open_w_write : string -> string -> FS -> result unit * FS;
  read_text : FS -> string -> option string;
  Image_open : string -> FS -> result Image;
  Image_resize : Image -> Z * Z -> result Image;
  Image_convert : Image -> string -> result Image;
  Image_close : Image -> result unit
}.

(** A mode-L image as PIL hands it out: one pixel per position, every
    pixel a single intensity in [0, 255]. *)
Definition intensity_ok (p : pixel) : bool :=
  match p with
  | Lum v => (0 <=? v) && (v <=? 255)
  | Flt _ | Bands _ => false
  end.

Definition greyscale (im : Image) : Prop :=
  Z.of_nat (List.length (getdata im)) = width im * height im /\
  forallb intensity_ok (getdata im) = true.

(** What the script relies on from the libraries.  [os.path.exists('')] is
    false although [Path('')] is the working directory, hence the side
    condition of [mkdir_exists]. *)
Record lawful (E : Env) : Prop := {
  mkdir_exists : forall p st st',
    p <> EmptyString ->
    Path_mkdir E p st = (Ok tt, st') -> os_path_exists E p st' = true;
  mkdir_keeps_files : forall p st r st',
    Path_mkdir E p st = (r, st') -> forall q, read_text E st' q = read_text E st q;
  write_read : forall p s st st',
    open_w_write E p s st = (Ok tt, st') -> read_text E st' p = Some s;
  resize_size : forall im sz im',
    Image_resize E im sz = Ok im' -> size im' = sz;
  convert_size : forall im im',
    Image_convert E im "L"%string = Ok im' -> size im' = size im;
  convert_greyscale : forall im im',
    Image_convert E im "L"%string = Ok im' -> greyscale im'
}.

(** ** The monad of the script: logger and file system state, exceptions,
    and [sys.exit] *)

Inductive outcome (A : Type) : Type :=
| Returns (a : A)
| Raises (e : exn)
| Exits (code : Z).
Arguments Returns {A} a.
Arguments Raises {A} e.
Arguments Exits {A} code.

(** The exit status of the interpreter: 0 when the script runs to its end,
    the code of [sys.exit], 1 after an uncaught exception. *)
Definition exit_status {A : Type} (o : outcome A) : Z :=
  match o with
  | Returns _ => 0
  | Raises _ => 1
  | Exits c => c
  end.

Section Program.

Variable E : Env.

Record World : Type := {
  logged : list log_record;
  fs : FS E
}.

Definition Prog (A : Type) : Type := World -> outcome A * World.

Definition ret {A : Type} (a : A) : Prog A := fun w => (Returns a, w).

Definition bind {A B : Type} (c : Prog A) (k : A -> Prog B) : Prog B :=
  fun w =>
    match c w with
    | (Returns a, w') => k a w'
    | (Raises e, w') => (Raises e, w')
    | (Exits n, w') => (Exits n, w')
    end.

Definition raise {A : Type} (e : exn) : Prog A := fun w => (Raises e, w).

(** [sys.exit(n)] *)
Definition sys_exit {A : Type} (n : Z) : Prog A := fun w => (Exits n, w).

Definition lift {A : Type} (r : result A) : Prog A :=
  match r with
  | Ok a => ret a
  | Err e => raise e
  end.

(** [try: body / except C as e: handler]: [catches] is [isinstance(e, C)];
    [SystemExit] passes through. *)
Definition try_except {A : Type} (body : Prog A) (catches : exn -> bool)
  (handler : exn -> Prog A) : Prog A :=
  fun w =>
    match body w with
    | (Raises e, w') => if catches e then handler e w' else (Raises e, w')
    | r => r
    end.

Definition log (l : level) (m : message) : Prog unit :=
  fun w => (Returns tt, {| logged := logged w ++ [(l, m)]; fs := fs w |}).

(** A file system call, run on the current state. *)
Definition fs_call {A : Type} (f : FS E -> result A * FS E) : Prog A :=
  fun w =>
    let '(r, fs') := f (fs w) in
    let w' := {| logged := logged w; fs := fs' |} in
    match r with
    | Ok a => (Returns a, w')
    | Err e => (Raises e, w')
    end.

Definition fs_query {A : Type} (f : FS E -> A) : Prog A :=
  fun w => (Returns (f (fs w)), w).

End Program.

Arguments ret {E A} a.
Arguments bind {E A B} c k.
Arguments raise {E A} e.
Arguments sys_exit {E A} n.
Arguments lift {E A} r.
Arguments try_except {E A} body catches handler.
Arguments log {E} l m.
Arguments fs_call {E A} f.
Arguments fs_query {E A} f.
Arguments logged {E} w.
Arguments fs {E} w.

Declare Scope prog_scope.
Delimit Scope prog_scope with prog.
Notation "x <- c1 ;; c2" := (bind c1 (fun x => c2))
  (at level 61, c1 at next level, right associativity) : prog_scope.
Notation "c1 ;; c2" := (bind c1 (fun _ => c2))
  (at level 61, right associativity) : prog_scope.
Local Open Scope prog_scope.

(** ** The script *)

(** An instance of [class AsciiArtConverter]: its attributes. *)
Record AsciiArtConverter : Set := {
  _is_context_manager : bool;
  path_to_image : string;
  image : option Image;
  target_width : Z
}.

(** The body of [for pixel in pixels]:
    [ascii_str += Chars.ASCII_CHARS.value[(pixel // 25)]].  For a float
    [pixel // 25] is a float, and for a tuple it is undefined: a TypeError
    either way, from the list lookup or from the division. *)
Definition ascii_step (ascii_str : string) (p : pixel) : result string :=
  match p with
  | Lum v =>
      match getitem ASCII_CHARS (v / 25) with
      | Ok c => Ok (String.append ascii_str c)
      | Err e => Err e
      end
  | Flt _ | Bands _ => Err TypeError
  end.

Fixpoint for_pixels (pixels : list pixel) (ascii_str : string) : result string :=
  match pixels with
  | [] => Ok ascii_str
  | p :: ps =>
      match ascii_step ascii_str p with
      | Ok s => for_pixels ps s
      | Err e => Err e
      end
  end.

(** The loop of [convert]:
    [for i in range(0, len(ascii_str), width): ascii_img += ascii_str[i: i + width] + "\n"]. *)
Definition reflow (ascii_str : string) (width : Z) : result string :=
  match range 0 (len ascii_str) width with
  | Err e => Err e
  | Ok indices =>
      Ok (fold_left
            (fun ascii_img i =>
               String.append ascii_img
                 (String.append (slice ascii_str i (i + width)) newline))
            indices EmptyString)
  end.

(** The folder [create_output_directory] works on. *)
Definition output_folder (cfg : Config) : string :=
  if contains "."%char (output_path cfg)
  then join "/"%string (but_last (split "/"%char (output_path cfg)))
  else output_path cfg.

(** [logging._nameToLevel]: the level names the logging module knows. *)
Definition _nameToLevel : list (string * Z) :=
  [("CRITICAL", 50); ("FATAL", 50); ("ERROR", 40); ("WARN", 30); ("WARNING", 30);
   ("INFO", 20); ("DEBUG", 10); ("NOTSET", 0)]%string.

Definition level_number (name : string) : option Z :=
  option_map snd (find (fun entry => String.eqb (fst entry) name) _nameToLevel).

(** [logging.getLevelName(name)] for a string: the number of a level name,
    and the string "Level " + name for any other string. *)
Inductive level_value : Set :=
| Level_number (n : Z)
| Level_string (s : string).

Definition getLevelName (name : string) : level_value :=
  match level_number name with
  | Some n => Level_number n
  | None => Level_string (String.append "Level " name)
  end.

(** The number of the level of a record. *)
Definition levelno (l : level) : Z :=
  match l with
  | DEBUG => 10
  | INFO => 20
  | ERROR => 40
  end.

(** The records of a log that the root logger emits when its level is [n]. *)
Definition emitted (n : Z) (l : list log_record) : list log_record :=
  filter (fun r => n <=? levelno (fst r)) l.

(** What [parser.parse_known_args()] does with a command line: it prints
    the help and exits with status 0 ([-h]), it rejects the command line
    and exits with status 2 (no [-i], for one), or it returns the
    configuration. *)
Inductive parse_outcome : Set :=
| Help
| Usage_error
| Parsed (cfg : Config).

Section Script.

Variable E : Env.
Variable cfg : Config.

(** [x.attr] where [x] may be [None] *)
Definition attr_of {A : Type} (x : option A) : Prog E A :=
  match x with
  | Some a => ret a
  | None => raise AttributeError
  end.

Definition load_image (self : AsciiArtConverter) : Prog E AsciiArtConverter :=
  try_except
    (log INFO (Msg_loading (path_to_image self));;
     opened <- fs_query (Image_open E (path_to_image self));;
     im <- lift opened;;
     ret {| _is_context_manager := _is_context_manager self;
            path_to_image := path_to_image self;
            image := Some im;
            target_width := target_width self |})
    is_FileNotFoundError
    (fun e =>
       log ERROR (Msg_unable_to_open (path_to_image self) e);;
       sys_exit 1).

(** [AsciiArtConverter(path_to_image, target_width=100)]; [None] for an
    argument that is not supplied. *)
Definition __init__ (path : string) (width_arg : option Z) : Prog E AsciiArtConverter :=
  load_image
    {| _is_context_manager := false;
       path_to_image := path;
       image := None;
       target_width := match width_arg with Some n => n | None => 100 end |}.

Definition __enter__ (self : AsciiArtConverter) : Prog E AsciiArtConverter :=
  ret {| _is_context_manager := true;
         path_to_image := path_to_image self;
         image := image self;
         target_width := target_width self |}.

Definition __exit__ (self : AsciiArtConverter) : Prog E unit :=
  try_except
    (match image self with
     | Some im => log INFO Msg_closing;; lift (Image_close E im)
     | None => ret tt
     end)
    is_Exception
    (fun e => log ERROR (Msg_close_failed e)).

Definition resize_image (self : AsciiArtConverter) : Prog E (option Image) :=
  try_except
    (im <- attr_of (image self);;
     let '(current_image_width, current_image_height) := size im in
     log DEBUG (Msg_og_size current_image_width current_image_height);;
     target_height <-
       lift (truediv (target_width self * current_image_height) current_image_width);;
     reduction <- lift (int_of_float (fmul target_height float_0_3));;
     reduction' <- lift (float_of_int reduction);;
     let target_height := fsub target_height reduction' in
     shown <- lift (int_of_float target_height);;
     log DEBUG (Msg_target_size (target_width self) shown);;
     h <- lift (int_of_float target_height);;
     resized <- lift (Image_resize E im (target_width self, h));;
     ret (Some resized))
    is_Exception
    (fun e => log ERROR (Msg_resize_failed e);; ret None).

Definition convert_to_greyscale (resized_image : option Image) : Prog E (option Image) :=
  try_except
    (im <- attr_of resized_image;;
     grey <- lift (Image_convert E im "L"%string);;
     ret (Some grey))
    is_Exception
    (fun e => log ERROR (Msg_greyscale_failed e);; ret None).

Definition convert_pixel_to_ascii (resized_greyscale_image : option Image)
  : Prog E (option string) :=
  try_except
    (im <- attr_of resized_greyscale_image;;
     let pixels := getdata im in
     ascii_str <- lift (for_pixels pixels EmptyString);;
     log DEBUG (Msg_pixels pixels);;
     log DEBUG (Msg_ascii ascii_str);;
     ret (Some ascii_str))
    is_Exception
    (fun e => log ERROR (Msg_ascii_failed e);; ret None).

Definition convert (self : AsciiArtConverter) : Prog E string :=
  log INFO (Msg_converting (image_path cfg));;
  target_image <- resize_image self;;
  greyscale_image <- convert_to_greyscale target_image;;
  ascii_str <- convert_pixel_to_ascii greyscale_image;;
  match ascii_str with
  | None => raise TypeError
  | Some s =>
      grey <- attr_of greyscale_image;;
      lift (reflow s (width grey))
  end.

(** [write_ascii_to_file(ascii_image, file_name='ascii_image.txt')] *)
Definition write_ascii_to_file (ascii_image : string) (name_arg : option string)
  : Prog E unit :=
  let file_name :=
    match name_arg with Some n => n | None => "ascii_image.txt"%string end in
  try_except
    (log INFO (Msg_new_ascii (output_path cfg) file_name);;
     fs_call (open_w_write E (os_path_join (output_path cfg) file_name) ascii_image))
    is_OSError
    (fun e => log ERROR (Msg_write_failed e)).

Definition create_output_directory : Prog E unit :=
  try_except
    (present <- fs_query (os_path_exists E (output_folder cfg));;
     if negb present
     then (log DEBUG (Msg_creating_folder (output_folder cfg));;
           fs_call (Path_mkdir E (output_folder cfg)))
     else ret tt)
    is_Exception
    (fun e => log ERROR (Msg_folder_failed e)).

(** [with mgr as x: body]: [__exit__] runs however the body ends; it
    returns [None], so the body's outcome stands. *)
Definition with_as {A : Type} (mgr : Prog E AsciiArtConverter)
  (body : AsciiArtConverter -> Prog E A) : Prog E A :=
  created <- mgr;;
  aac <- __enter__ created;;
  fun w =>
    let '(r, w1) := body aac w in
    match __exit__ aac w1 with
    | (Returns _, w2) => (r, w2)
    | (Raises e, w2) => (Raises e, w2)
    | (Exits n, w2) => (Exits n, w2)
    end.

(** The converter the entry point builds. *)
Definition main_converter : Prog E AsciiArtConverter :=
  __init__ (image_path cfg) (Some 120).

(** The block under [if __name__ == '__main__'] *)
Definition main : Prog E unit :=
  log DEBUG (Msg_config cfg);;
  create_output_directory;;
  with_as main_converter
    (fun aac =>
       ascii_string <- convert aac;;
       write_ascii_to_file ascii_string (Some (output_file_name cfg))).

(** One run of the block under [if __name__ == '__main__'], from a file
    system state and with an empty log: a run of the script once the
    command line is parsed and the logging is set up. *)
Definition run (st : FS E) : outcome unit * World E :=
  main {| logged := []; fs := st |}.

(** [logging.basicConfig(level=...)]: the root logger takes a number as its
    level, and a string only if it is a level name; otherwise
    [ValueError: Unknown level].  The result is the level of the root
    logger. *)
Definition basicConfig (lv : level_value) : Prog E Z :=
  match lv with
  | Level_number n => ret n
  | Level_string s =>
      match level_number s with
      | Some n => ret n
      | None => raise ValueError
      end
  end.

(** The module once the command line is parsed: the logging set-up, then
    the block under [if __name__ == '__main__']. *)
Definition script : Prog E unit :=
  basicConfig (getLevelName (log_level cfg));;
  main.

End Script.

(** The whole module, by what the parser does with the command line. *)
Definition aag (E : Env) (args : parse_outcome) : Prog E unit :=
  match args with
  | Help => sys_exit 0
  | Usage_error => sys_exit 2
  | Parsed cfg => script E cfg
  end.

(** ** The properties the specification states, as definitions *)

Definition result_bind {A B : Type} (r : result A) (k : A -> result B) : result B :=
  match r with
  | Ok a => k a
  | Err e => Err e
  end.

(** The height the specification gives:
    [int(tw*H/W) - int(int(tw*H/W) * 0.3)], the quotient truncated before
    the 30% are taken. *)
Definition truncated_height (tw H W : Z) : result Z :=
  result_bind (truediv (tw * H) W) (fun t =>
  result_bind (int_of_float t) (fun n =>
  result_bind (float_of_int n) (fun n' =>
  result_bind (int_of_float (fmul n' float_0_3)) (fun k =>
  Ok (n - k))))).

(** The same with the quotient [t = tw*H/W] left as it is:
    [int(t - int(t * 0.3))]. *)
Definition untruncated_height (tw H W : Z) : result Z :=
  result_bind (truediv (tw * H) W) (fun t =>
  result_bind (int_of_float (fmul t float_0_3)) (fun k =>
  result_bind (float_of_int k) (fun k' =>
  int_of_float (fsub t k')))).

(** Removing every newline character of a text. *)
Fixpoint strip_newlines (s : string) : string :=
  match s with
  | EmptyString => EmptyString
  | String c s' =>
      if Ascii.eqb c LF then strip_newlines s' else String c (strip_newlines s')
  end.

(** The ramp index of an intensity, [intensity // 25]. *)
Definition ramp_index (intensity : Z) : Z := intensity / 25.

(** The pixel at column [x] of row [y]. *)
Definition pixel_at (im : Image) (x y : Z) : option pixel :=
  nth_error (getdata im) (Z.to_nat (y * width im + x)).

Definition is_error (r : log_record) : bool :=
  match fst r with
  | ERROR => true
  | _ => false
  end.

(** The world in which the script opens the image: the one
    [create_output_directory] leaves after the configuration is logged. *)
Definition world_at_open (E : Env) (cfg : Config) (st : FS E) : World E :=
  snd (create_output_directory E cfg
         {| logged := [(DEBUG, Msg_config cfg)]; fs := st |}).

Definition state_at_open (E : Env) (cfg : Config) (st : FS E) : FS E :=
  fs (world_at_open E cfg st).

(** A world with more records in its log. *)
Definition extend {E : Env} (w : World E) (extra : list log_record) : World E :=
  {| logged := logged w ++ extra; fs := fs w |}.

(** The converter inside the [with] block of the entry point, once the
    image [im] is loaded. *)
Definition entered (cfg : Config) (im : Image) : AsciiArtConverter :=
  {| _is_context_manager := true;
     path_to_image := image_path cfg;
     image := Some im;
     target_width := 120 |}.

(** ** A concrete environment

    A small file tree rooted at the working directory (no links, no
    permissions, [..] is not interpreted) and a picture library that
    resamples by nearest neighbour.  It instantiates [Env], and the examples
    below run the script in it. *)

Module Sample.

Inductive content : Set :=
| Text (s : string)
| Picture (im : Image).

Definition path : Set := list string.

Record disk : Set := {
  dirs : list path;
  files : list (path * content)
}.

Fixpoint path_eqb (a b : path) : bool :=
  match a, b with
  | [], [] => true
  | x :: a', y :: b' => String.eqb x y && path_eqb a' b'
  | _, _ => false
  end.

Definition is_name (c : string) : bool :=
  negb (String.eqb c EmptyString) && negb (String.eqb c "."%string).

Definition normalize (p : string) : path := filter is_name (split "/"%char p).

Fixpoint lookup (c : path) (l : list (path * content)) : option content :=
  match l with
  | [] => None
  | (k, v) :: l' => if path_eqb c k then Some v else lookup c l'
  end.

Definition is_dir (d : disk) (c : path) : bool :=
  match c with
  | [] => true
  | _ => existsb (path_eqb c) (dirs d)
  end.

Definition is_file (d : disk) (c : path) : bool :=
  match lookup c (files d) with
  | Some _ => true
  | None => false
  end.

Definition exists_ (p : string) (d : disk) : bool :=
  negb (String.eqb p EmptyString)
  && (is_dir d (normalize p) || is_file d (normalize p)).

(** The non-empty initial segments of a path, shortest first. *)
Fixpoint prefixes (c : path) : list path :=
  match c with
  | [] => []
  | x :: c' => [x] :: map (cons x) (prefixes c')
  end.

Definition mkdir (p : string) (d : disk) : result unit * disk :=
  let c := normalize p in
  if existsb (is_file d) (prefixes c)
  then (Err (if is_file d c then FileExistsError else NotADirectoryError), d)
  else (Ok tt, {| dirs := prefixes c ++ dirs d; files := files d |}).

Definition write (p s : string) (d : disk) : result unit * disk :=
  let c := normalize p in
  if String.eqb p EmptyString then (Err FileNotFoundError, d)
  else if is_dir d c then (Err IsADirectoryError, d)
  else if is_dir d (removelast c)
  then (Ok tt, {| dirs := dirs d; files := (c, Text s) :: files d |})
  else (Err (if is_file d (removelast c)
             then NotADirectoryError else FileNotFoundError), d).

Definition read (d : disk) (p : string) : option string :=
  match lookup (normalize p) (files d) with
  | Some (Text s) => Some s
  | _ => None
  end.

Definition open (p : string) (d : disk) : result Image :=
  if String.eqb p EmptyString then Err FileNotFoundError
  else if is_dir d (normalize p) then Err IsADirectoryError
  else
    match lookup (normalize p) (files d) with
    | Some (Picture im) => Ok im
    | Some (Text _) => Err OSError
    | None => Err FileNotFoundError
    end.

Definition well_formed (im : Image) : bool :=
  (0 <=? width im) && (0 <=? height im)
  && (Z.of_nat (List.length (getdata im)) =? width im * height im).

Definition upto (n : Z) : list Z := map Z.of_nat (seq 0 (Z.to_nat n)).

Definition resize (im : Image) (sz : Z * Z) : result Image :=
  let '(w, h) := sz in
  if (w <? 1) || (h <? 1) || negb (well_formed im)
     || (width im <? 1) || (height im <? 1)
  then Err ValueError
  else
    Ok {| size := (w, h);
          getdata :=
            flat_map
              (fun y =>
                 map (fun x =>
                        nth (Z.to_nat ((y * height im / h) * width im
                                       + x * width im / w))
                          (getdata im) (Lum 0))
                   (upto w))
              (upto h) |}.

Definition clamp (v : Z) : Z := Z.max 0 (Z.min 255 v).

Definition luma (p : pixel) : pixel :=
  match p with
  | Lum v => Lum (clamp v)
  | Flt x => Lum (clamp (match int_of_float x with Ok k => k | Err _ => 0 end))
  | Bands [r; g; b] =>
      Lum (clamp (Z.shiftr (r * 19595 + g * 38470 + b * 7471 + 32768) 16))
  | Bands (v :: _) => Lum (clamp v)
  | Bands [] => Lum 0
  end.

Definition to_mode (im : Image) (mode : string) : result Image :=
  if String.eqb mode "L"%string && well_formed im
  then Ok {| size := size im; getdata := map luma (getdata im) |}
  else Err ValueError.

Definition env : Env :=
  {| FS := disk;
     os_path_exists := exists_;
     Path_mkdir := mkdir;
     open_w_write := write;
     read_text := read;
     Image_open := open;
     Image_resize := resize;
     Image_convert := to_mode;
     Image_close := fun _ => Ok tt |}.

(** A picture of one grey level. *)
Definition uniform (w h v : Z) : Image :=
  {| size := (w, h);
     getdata := repeat (Bands [v; v; v]) (Z.to_nat (w * h)) |}.

Definition holding (name : string) (c : content) : disk :=
  {| dirs := []; files := [([name], c)] |}.

Definition config (input out_dir : string) : Config :=
  {| log_level := "INFO"%string;
     image_path := input;
     output_path := out_dir;
     output_file_name := "ascii_image.txt"%string |}.

(** The world of a run that starts on disk [d]: nothing logged yet. *)
Definition fresh (d : disk) : World env := Build_World env [] d.

Definition empty : disk := {| dirs := []; files := [] |}.

End Sample.

(** ** Auxiliary definitions of the proofs *)

(** [s] without its first [n] characters. *)
Fixpoint skip (n : nat) (s : string) : string :=
  match n, s with
  | O, _ => s
  | S n', String _ s' => skip n' s'
  | S _, EmptyString => EmptyString
  end.

(** The concatenation of a list of strings. *)
Definition concat_all (l : list string) : string :=
  fold_right String.append EmptyString l.

(** The [with] block of the entry point: what it does with the converter
    once the image is loaded. *)
Definition block (E : Env) (cfg : Config) (aac : AsciiArtConverter) : Prog E unit :=
  ascii_string <- convert E cfg aac;;
  write_ascii_to_file E cfg ascii_string (Some (output_file_name cfg)).

(** Unfolding the monad. *)
Ltac unfold_prog :=
  unfold try_except, bind, attr_of, ret, lift, raise, sys_exit, log,
    fs_call, fs_query in *.

(** Finding a record in a log. *)
Ltac find_record :=
  repeat first [rewrite in_app_iff | progress cbn [In]]; intuition auto.

(** A float that is zero, or finite with mantissa digits plus exponent, and
    exponent, at most [B]. *)
Definition small (B : Z) (x : float) : Prop :=
  match x with
  | S754_zero _ => True
  | S754_finite _ m e => Zdigits2 (Z.pos m) + e <= B /\ e <= B
  | _ => False
  end.

(** A pixel with which the mapper can index the ramp: an int whose bucket
    [v // 25] is an index of the 11-entry list, from either end. *)
Definition indexable (p : pixel) : bool :=
  match p with
  | Lum v => (-275 <=? v) && (v <? 275)
  | Flt _ | Bands _ => false
  end.

(** * Proofs *)

(** ** Strings *)

Lemma append_nil_r (s : string) : String.append s EmptyString = s.
Proof. induction s as [|c s IH]; simpl; [reflexivity | now rewrite IH]. Qed.

Lemma append_assoc (a b c : string) :
  String.append (String.append a b) c = String.append a (String.append b c).
Proof. induction a as [|x a IH]; simpl; [reflexivity | now rewrite IH]. Qed.

Lemma length_append (a b : string) :
  String.length (String.append a b) = (String.length a + String.length b)%nat.
Proof. induction a as [|x a IH]; simpl; [reflexivity | now rewrite IH]. Qed.

Lemma substring_skip (n m : nat) (s : string) :
  substring n m s = substring 0 m (skip n s).
Proof.
  revert s; induction n as [|n IH]; intros s.
  - reflexivity.
  - destruct s as [|c s]; simpl.
    + now destruct m.
    + apply IH.
Qed.

Lemma substring_whole (m : nat) (s : string) :
  (String.length s <= m)%nat -> substring 0 m s = s.
Proof.
  revert m; induction s as [|c s IH]; intros m Hm.
  - now destruct m.
  - destruct m as [|m]; simpl in *; [lia|].
    rewrite IH by lia. reflexivity.
Qed.

Lemma skip_all (n : nat) (s : string) :
  (String.length s <= n)%nat -> skip n s = EmptyString.
Proof.
  revert s; induction n as [|n IH]; intros s Hs.
  - destruct s; simpl in *; [reflexivity | lia].
  - destruct s as [|c s]; simpl in *; [reflexivity | apply IH; lia].
Qed.

Lemma length_skip (n : nat) (s : string) :
  String.length (skip n s) = (String.length s - n)%nat.
Proof.
  revert s; induction n as [|n IH]; intros s.
  - simpl. lia.
  - destruct s as [|c s]; simpl; [reflexivity | apply IH].
Qed.

Lemma skip_add (a b : nat) (s : string) : skip (a + b) s = skip b (skip a s).
Proof.
  revert s; induction a as [|a IH]; intros s.
  - reflexivity.
  - destruct s as [|c s]; simpl.
    + now destruct b.
    + apply IH.
Qed.

Lemma take_skip (n : nat) (s : string) :
  String.append (substring 0 n s) (skip n s) = s.
Proof.
  revert s; induction n as [|n IH]; intros s.
  - now destruct s.
  - destruct s as [|c s]; simpl; [reflexivity | now rewrite IH].
Qed.

(** The chunks of [w] characters of [s], put back together. *)
Lemma chunks_concat (w n : nat) (s : string) :
  (String.length s <= n * w)%nat ->
  concat_all (map (fun k => substring (k * w) w s) (seq 0 n)) = s.
Proof.
  revert s; induction n as [|n IH]; intros s Hs.
  - simpl in *. destruct s; simpl in *; [reflexivity | lia].
  - change (seq 0 (S n)) with (0%nat :: seq 1 n).
    rewrite <- seq_shift. cbn [map]. rewrite map_map.
    unfold concat_all; cbn [fold_right]; fold (concat_all).
    rewrite (map_ext _ (fun k => substring (k * w) w (skip w s))).
    + rewrite IH by (rewrite length_skip; lia). apply take_skip.
    + intros k. rewrite (substring_skip (w + k * w)), skip_add.
      symmetry. apply substring_skip.
Qed.

Lemma len_nonneg (s : string) : 0 <= len s.
Proof. unfold len. lia. Qed.

(** A slice that starts at a multiple of the width is a [substring]. *)
Lemma slice_chunk (s : string) (k : nat) (w : Z) :
  1 <= w ->
  slice s (Z.of_nat k * w) (Z.of_nat k * w + w)
  = substring (k * Z.to_nat w) (Z.to_nat w) s.
Proof.
  intros Hw. unfold slice, adjust_index.
  pose proof (len_nonneg s) as Hl. unfold len in *.
  set (n := String.length s) in *.
  assert (Hk : 0 <= Z.of_nat k * w) by nia.
  destruct (Z.of_nat k * w <? 0) eqn:E1; [apply Z.ltb_lt in E1; lia|].
  destruct (Z.of_nat k * w + w <? 0) eqn:E2; [apply Z.ltb_lt in E2; lia|].
  rewrite E1, E2.
  rewrite (substring_skip (k * Z.to_nat w)).
  destruct (Z.of_nat n <=? Z.of_nat k * w) eqn:E3.
  - apply Z.leb_le in E3.
    destruct (Z.of_nat n <=? Z.of_nat k * w + w) eqn:E4;
      [|apply Z.leb_gt in E4; lia].
    rewrite Z.sub_diag. rewrite Nat2Z.id.
    rewrite substring_skip.
    rewrite (skip_all n) by lia.
    rewrite (skip_all (k * Z.to_nat w)) by nia.
    now destruct (Z.to_nat w).
  - apply Z.leb_gt in E3.
    replace (Z.to_nat (Z.of_nat k * w)) with (k * Z.to_nat w)%nat by nia.
    destruct (Z.of_nat n <=? Z.of_nat k * w + w) eqn:E4.
    + apply Z.leb_le in E4.
      rewrite substring_skip.
      rewrite !substring_whole; [reflexivity | |];
        rewrite length_skip; fold n; nia.
    + replace (Z.of_nat k * w + w - Z.of_nat k * w) with w by lia.
      apply substring_skip.
Qed.

Lemma fold_left_rows (s : string) (w : Z) (indices : list Z) (acc : string) :
  fold_left
    (fun ascii_img i =>
       String.append ascii_img (String.append (slice s i (i + w)) newline))
    indices acc
  = String.append acc
      (concat_all (map (fun i => String.append (slice s i (i + w)) newline) indices)).
Proof.
  revert acc; induction indices as [|i l IH]; intros acc; simpl.
  - symmetry. apply append_nil_r.
  - rewrite IH. apply append_assoc.
Qed.

Lemma strip_newlines_append (a b : string) :
  strip_newlines (String.append a b)
  = String.append (strip_newlines a) (strip_newlines b).
Proof.
  induction a as [|c a IH]; cbn [String.append strip_newlines]; [reflexivity|].
  destruct (Ascii.eqb c LF); cbn [String.append]; now rewrite IH.
Qed.

Lemma strip_newlines_id (s : string) :
  contains LF s = false -> strip_newlines s = s.
Proof.
  induction s as [|c s IH]; cbn [contains strip_newlines]; [reflexivity|].
  intros H. apply orb_false_elim in H as [Hc Hs].
  rewrite Ascii.eqb_sym, Hc, IH by assumption. reflexivity.
Qed.

Lemma strip_newlines_rows {A : Type} (row : A -> string) (l : list A) :
  strip_newlines (concat_all (map (fun i => String.append (row i) newline) l))
  = strip_newlines (concat_all (map row l)).
Proof.
  induction l as [|i l IH]; [reflexivity|].
  unfold concat_all in *. cbn [map fold_right].
  rewrite !strip_newlines_append, IH.
  replace (strip_newlines newline) with EmptyString by reflexivity.
  now rewrite append_nil_r.
Qed.

(** The number of rows: enough of them to cover the string. *)
Lemma rows_cover (n w : Z) :
  0 <= n -> 1 <= w ->
  n <= (if 0 <? n then (n - 0 - 1) / w + 1 else 0) * w.
Proof.
  intros Hn Hw. destruct (0 <? n) eqn:E.
  - apply Z.ltb_lt in E. rewrite Z.sub_0_r.
    pose proof (Z.div_mod (n - 1) w ltac:(lia)).
    pose proof (Z.mod_pos_bound (n - 1) w ltac:(lia)). nia.
  - apply Z.ltb_ge in E. lia.
Qed.

Lemma reflow_rows (s : string) (w : Z) :
  1 <= w ->
  exists n : nat,
    (String.length s <= n * Z.to_nat w)%nat /\
    reflow s w
    = Ok (concat_all
            (map (fun k => String.append (substring (k * Z.to_nat w) (Z.to_nat w) s) newline)
               (seq 0 n))).
Proof.
  intros Hw. unfold reflow, range.
  destruct (w =? 0) eqn:E0; [apply Z.eqb_eq in E0; lia|].
  destruct (0 <? w) eqn:E1; [|apply Z.ltb_ge in E1; lia].
  pose proof (rows_cover (len s) w (len_nonneg s) Hw) as Hc.
  set (n := if 0 <? len s then (len s - 0 - 1) / w + 1 else 0) in *.
  exists (Z.to_nat n). split.
  - unfold len in Hc. nia.
  - rewrite fold_left_rows. simpl String.append.
    rewrite map_map. f_equal. f_equal.
    apply map_ext. intros k. cbn beta.
    now rewrite slice_chunk.
Qed.

(** ** The ascii mapper *)

Lemma ramp_index_bounds (p : Z) : 0 <= p <= 255 -> 0 <= ramp_index p <= 10.
Proof.
  intros [H0 H1]. unfold ramp_index. split.
  - apply Z.div_pos; lia.
  - enough (p / 25 < 11) by lia.
    apply Z.div_lt_upper_bound; lia.
Qed.

Lemma intensity_ok_bounds (p : pixel) :
  intensity_ok p = true -> exists v, p = Lum v /\ 0 <= v <= 255.
Proof.
  destruct p as [v|x|vs]; simpl; [|discriminate..].
  intros H. apply andb_prop in H as [H0 H1].
  apply Z.leb_le in H0, H1. now exists v.
Qed.

(** The lookup for an index in [0, 10] takes the branch without wrap-around
    and finds one character. *)
Lemma getitem_ramp (i : Z) :
  0 <= i <= 10 ->
  exists c : ascii,
    getitem ASCII_CHARS i = Ok (String c EmptyString)
    /\ nth_error ASCII_CHARS (Z.to_nat i) = Some (String c EmptyString).
Proof.
  intros Hi.
  assert (H : i = 0 \/ i = 1 \/ i = 2 \/ i = 3 \/ i = 4 \/ i = 5 \/ i = 6
              \/ i = 7 \/ i = 8 \/ i = 9 \/ i = 10) by lia.
  repeat (destruct H as [-> | H]); try subst i;
    eexists; split; vm_compute; reflexivity.
Qed.

Lemma ascii_step_ok (acc : string) (v : Z) :
  0 <= v <= 255 ->
  exists c : ascii,
    ascii_step acc (Lum v) = Ok (String.append acc (String c EmptyString))
    /\ nth_error ASCII_CHARS (Z.to_nat (ramp_index v)) = Some (String c EmptyString).
Proof.
  intros Hv.
  destruct (getitem_ramp (ramp_index v) (ramp_index_bounds v Hv)) as (c & Hc & Hn).
  exists c. unfold ascii_step. fold (ramp_index v). now rewrite Hc.
Qed.

(** One character per pixel, in the order of the pixels. *)
Lemma for_pixels_ok (pixels : list pixel) (acc : string) :
  forallb intensity_ok pixels = true ->
  exists cs : list ascii,
    for_pixels pixels acc = Ok (String.append acc (string_of_list_ascii cs))
    /\ Forall2
         (fun p c => exists v, p = Lum v /\ 0 <= v <= 255 /\
            nth_error ASCII_CHARS (Z.to_nat (ramp_index v)) = Some (String c EmptyString))
         pixels cs.
Proof.
  revert acc; induction pixels as [|p ps IH]; intros acc Hok.
  - exists []. split; [simpl; now rewrite append_nil_r | constructor].
  - cbn [forallb] in Hok. apply andb_prop in Hok as [Hp Hps].
    destruct (intensity_ok_bounds p Hp) as (v & -> & Hv).
    destruct (ascii_step_ok acc v Hv) as (c & Hstep & Hc).
    destruct (IH (String.append acc (String c EmptyString)) Hps) as (cs & Hrun & Hall).
    exists (c :: cs). split.
    + cbn [for_pixels]. rewrite Hstep, Hrun, append_assoc. reflexivity.
    + constructor; [now exists v | assumption].
Qed.

Lemma length_string_of_list_ascii (cs : list ascii) :
  String.length (string_of_list_ascii cs) = List.length cs.
Proof. induction cs; simpl; congruence. Qed.

Lemma get_string_of_list_ascii (cs : list ascii) (i : nat) :
  String.get i (string_of_list_ascii cs) = nth_error cs i.
Proof.
  revert i; induction cs as [|c cs IH]; intros [|i]; simpl; auto.
Qed.

Lemma Forall2_nth_error {A B : Type} (R : A -> B -> Prop) (l : list A) (l' : list B) :
  Forall2 R l l' ->
  forall i b, nth_error l' i = Some b -> exists a, nth_error l i = Some a /\ R a b.
Proof.
  induction 1 as [|a b l l' Hab _ IH]; intros [|i] b'; simpl; try discriminate.
  - intros [= <-]. now exists a.
  - apply IH.
Qed.

Lemma Forall2_nth_error_l {A B : Type} (R : A -> B -> Prop) (l : list A) (l' : list B) :
  Forall2 R l l' ->
  forall i a, nth_error l i = Some a -> exists b, nth_error l' i = Some b /\ R a b.
Proof.
  induction 1 as [|a b l l' Hab _ IH]; intros [|i] a'; simpl; try discriminate.
  - intros [= <-]. now exists b.
  - apply IH.
Qed.

Lemma Forall2_length {A B : Type} (R : A -> B -> Prop) (l : list A) (l' : list B) :
  Forall2 R l l' -> List.length l = List.length l'.
Proof. induction 1; simpl; congruence. Qed.

(** C6: for every pixel intensity in [0, 255] the ramp index
    [intensity // 25] lies in [0, 10], and the lookup into the 11-element
    ramp is in bounds: it raises no IndexError and reads the entry at that
    very index. *)
Theorem ramp_index_in_bounds (intensity : Z) (ascii_str : string) :
  0 <= intensity <= 255 ->
  0 <= ramp_index intensity <= 10
  /\ ramp_index intensity < Z.of_nat (List.length ASCII_CHARS)
  /\ exists c,
       nth_error ASCII_CHARS (Z.to_nat (ramp_index intensity)) = Some c
       /\ getitem ASCII_CHARS (intensity / 25) = Ok c
       /\ ascii_step ascii_str (Lum intensity) = Ok (String.append ascii_str c).
Proof.
  intros Hv. pose proof (ramp_index_bounds intensity Hv) as Hb.
  split; [assumption|]. split; [simpl; lia|].
  destruct (getitem_ramp _ Hb) as (c & Hg & Hn).
  exists (String c EmptyString). repeat split; try assumption.
  unfold ascii_step. fold (ramp_index intensity). now rewrite Hg.
Qed.

(** An instance: the brightest intensity. *)
Lemma ramp_index_in_bounds_witness :
  0 <= ramp_index 255 <= 10
  /\ ramp_index 255 < Z.of_nat (List.length ASCII_CHARS)
  /\ exists c,
       nth_error ASCII_CHARS (Z.to_nat (ramp_index 255)) = Some c
       /\ getitem ASCII_CHARS (255 / 25) = Ok c
       /\ ascii_step EmptyString (Lum 255) = Ok (String.append EmptyString c).
Proof. apply (ramp_index_in_bounds 255 EmptyString). lia. Defined.

(** C10: the mapping from intensity to ramp position is monotone: for
    intensities [p <= q] in [0, 255], the character of [p] stands at ramp
    index [p // 25], the character of [q] at [q // 25], and the first index
    is at most the second. *)
Theorem ramp_index_monotone (p q : Z) :
  0 <= p <= 255 -> 0 <= q <= 255 -> p <= q ->
  ramp_index p <= ramp_index q
  /\ exists cp cq,
       ascii_step EmptyString (Lum p) = Ok cp
       /\ ascii_step EmptyString (Lum q) = Ok cq
       /\ nth_error ASCII_CHARS (Z.to_nat (ramp_index p)) = Some cp
       /\ nth_error ASCII_CHARS (Z.to_nat (ramp_index q)) = Some cq.
Proof.
  intros Hp Hq Hpq. split.
  - unfold ramp_index. apply Z.div_le_mono; lia.
  - destruct (ascii_step_ok EmptyString p Hp) as (cp & Hsp & Hnp).
    destruct (ascii_step_ok EmptyString q Hq) as (cq & Hsq & Hnq).
    exists (String cp EmptyString), (String cq EmptyString). auto.
Qed.

(** An instance: the two sides of the first bucket boundary. *)
Lemma ramp_index_monotone_witness :
  ramp_index 24 <= ramp_index 25
  /\ exists cp cq,
       ascii_step EmptyString (Lum 24) = Ok cp
       /\ ascii_step EmptyString (Lum 25) = Ok cq
       /\ nth_error ASCII_CHARS (Z.to_nat (ramp_index 24)) = Some cp
       /\ nth_error ASCII_CHARS (Z.to_nat (ramp_index 25)) = Some cq.
Proof. apply ramp_index_monotone; lia. Defined.

Lemma convert_pixel_to_ascii_ok (E : Env) (im : Image) (w : World E) (s : string) :
  for_pixels (getdata im) EmptyString = Ok s ->
  convert_pixel_to_ascii E (Some im) w
  = (Returns (Some s),
     {| logged := (logged w ++ [(DEBUG, Msg_pixels (getdata im))])
                  ++ [(DEBUG, Msg_ascii s)];
        fs := fs w |}).
Proof.
  intros H.
  unfold convert_pixel_to_ascii, try_except, bind, attr_of, ret, lift, log.
  cbn. rewrite H. reflexivity.
Qed.

(** C2: for every greyscale image whose intensities lie in [0, 255] the
    mapper returns a string with one character for each pixel; every
    character of it is one of the 11 symbols of the ramp, the character at
    the place of a pixel being the ramp entry of index [v // 25] for the
    pixel's intensity v: '@' for intensity 0, '.' for 255, and '*', of ramp
    index 5, for 125. *)
Theorem ascii_chars_in_ramp (E : Env) (im : Image) (w : World E) :
  forallb intensity_ok (getdata im) = true ->
  (exists s w',
     convert_pixel_to_ascii E (Some im) w = (Returns (Some s), w')
     /\ String.length s = List.length (getdata im)
     /\ (forall i c, String.get i s = Some c -> In (String c EmptyString) ASCII_CHARS)
     /\ (forall i v, nth_error (getdata im) i = Some (Lum v) ->
         exists c,
           String.get i s = Some c
           /\ nth_error ASCII_CHARS (Z.to_nat (ramp_index v)) = Some (String c EmptyString)
           /\ (v = 0 -> c = "@"%char)
           /\ (v = 255 -> c = "."%char)
           /\ (v = 125 -> ramp_index v = 5 /\ c = "*"%char)))
  /\ fst (convert_pixel_to_ascii E
            (Some {| size := (3, 1); getdata := [Lum 0; Lum 255; Lum 125] |}) w)
     = Returns (Some "@.*"%string).
Proof.
  intros Hok. split; [|reflexivity].
  destruct (for_pixels_ok (getdata im) EmptyString Hok) as (cs & Hrun & Hall).
  cbn [String.append] in Hrun.
  eexists; eexists; split; [apply convert_pixel_to_ascii_ok; eassumption|].
  split; [|split].
  - rewrite length_string_of_list_ascii. symmetry.
    eapply Forall2_length; eassumption.
  - intros i c Hget. rewrite get_string_of_list_ascii in Hget.
    destruct (Forall2_nth_error _ _ _ Hall i c Hget) as (p & _ & v & _ & _ & Hc).
    eapply nth_error_In; eassumption.
  - intros i v Hp.
    destruct (Forall2_nth_error_l _ _ _ Hall _ _ Hp) as (c & Hc & v' & Hv & _ & Hramp).
    injection Hv as <-. exists c. rewrite get_string_of_list_ascii.
    split; [assumption|]. split; [assumption|].
    split; [|split]; intros ->; cbn in Hramp; injection Hramp as <-; auto.
Qed.

(** An instance: a row of the three intensities the claim names. *)
Lemma ascii_chars_in_ramp_witness :
  let im := {| size := (3, 1); getdata := [Lum 0; Lum 255; Lum 125] |} in
  (exists s w',
     convert_pixel_to_ascii Sample.env (Some im) (Sample.fresh Sample.empty)
     = (Returns (Some s), w')
     /\ String.length s = List.length (getdata im)
     /\ (forall i c, String.get i s = Some c -> In (String c EmptyString) ASCII_CHARS)
     /\ (forall i v, nth_error (getdata im) i = Some (Lum v) ->
         exists c,
           String.get i s = Some c
           /\ nth_error ASCII_CHARS (Z.to_nat (ramp_index v)) = Some (String c EmptyString)
           /\ (v = 0 -> c = "@"%char)
           /\ (v = 255 -> c = "."%char)
           /\ (v = 125 -> ramp_index v = 5 /\ c = "*"%char)))
  /\ fst (convert_pixel_to_ascii Sample.env (Some im) (Sample.fresh Sample.empty))
     = Returns (Some "@.*"%string).
Proof.
  apply (ascii_chars_in_ramp Sample.env
           {| size := (3, 1); getdata := [Lum 0; Lum 255; Lum 125] |}
           (Sample.fresh Sample.empty)).
  reflexivity.
Defined.

(** C4: for every greyscale image of width W and height H with all
    intensities in [0, 255], the flat string the mapper returns has length
    exactly W * H, and its character at position y * W + x is the ramp
    character of the pixel in column x of row y. *)
Theorem ascii_length_is_width_times_height (E : Env) (im : Image) (w : World E) :
  greyscale im ->
  exists s w',
    convert_pixel_to_ascii E (Some im) w = (Returns (Some s), w')
    /\ len s = width im * height im
    /\ forall x y, 0 <= x < width im -> 0 <= y < height im ->
       exists v c,
         pixel_at im x y = Some (Lum v)
         /\ nth_error ASCII_CHARS (Z.to_nat (ramp_index v)) = Some (String c EmptyString)
         /\ String.get (Z.to_nat (y * width im + x)) s = Some c.
Proof.
  intros [Hlen Hok].
  destruct (for_pixels_ok (getdata im) EmptyString Hok) as (cs & Hrun & Hall).
  cbn [String.append] in Hrun.
  pose proof (Forall2_length _ _ _ Hall) as Hcs.
  eexists; eexists; split; [apply convert_pixel_to_ascii_ok; eassumption|].
  split.
  - unfold len. rewrite length_string_of_list_ascii, <- Hcs. assumption.
  - intros x y Hx Hy. unfold pixel_at.
    assert (Hi : (Z.to_nat (y * width im + x) < List.length (getdata im))%nat) by nia.
    destruct (nth_error (getdata im) (Z.to_nat (y * width im + x))) as [p|] eqn:Hp;
      [|apply nth_error_None in Hp; lia].
    destruct (Forall2_nth_error_l _ _ _ Hall _ _ Hp) as (c & Hc & v & -> & _ & Hramp).
    exists v, c. rewrite get_string_of_list_ascii. auto.
Qed.

(** An instance: a 2x2 image. *)
Lemma ascii_length_is_width_times_height_witness :
  exists s w',
    convert_pixel_to_ascii Sample.env
      (Some {| size := (2, 2); getdata := [Lum 0; Lum 30; Lum 128; Lum 255] |})
      (Sample.fresh Sample.empty)
    = (Returns (Some s), w')
    /\ len s = 2 * 2
    /\ forall x y, 0 <= x < 2 -> 0 <= y < 2 ->
       exists v c,
         pixel_at {| size := (2, 2); getdata := [Lum 0; Lum 30; Lum 128; Lum 255] |} x y
         = Some (Lum v)
         /\ nth_error ASCII_CHARS (Z.to_nat (ramp_index v)) = Some (String c EmptyString)
         /\ String.get (Z.to_nat (y * 2 + x)) s = Some c.
Proof.
  apply (ascii_length_is_width_times_height Sample.env
           {| size := (2, 2); getdata := [Lum 0; Lum 30; Lum 128; Lum 255] |}).
  split; reflexivity.
Defined.

(** ** The sample environment is lawful *)

Lemma path_eqb_refl (c : Sample.path) : Sample.path_eqb c c = true.
Proof.
  induction c as [|x c IH]; simpl; [reflexivity|].
  now rewrite String.eqb_refl, IH.
Qed.

Lemma prefixes_self (x : string) (c : Sample.path) :
  In (x :: c) (Sample.prefixes (x :: c)).
Proof.
  revert x; induction c as [|y c IH]; intros x.
  - left. reflexivity.
  - right. apply in_map, IH.
Qed.

Lemma luma_ok (p : pixel) : intensity_ok (Sample.luma p) = true.
Proof.
  assert (H : forall v, intensity_ok (Lum (Sample.clamp v)) = true).
  { intros v. unfold intensity_ok, Sample.clamp.
    apply andb_true_intro; split; apply Z.leb_le; lia. }
  destruct p as [v|x|[|r [|g [|b [|a vs]]]]]; cbn [Sample.luma]; auto.
Qed.

Lemma sample_lawful : lawful Sample.env.
Proof.
  constructor; simpl.
  - intros p st st' Hp. unfold Sample.mkdir, Sample.exists_.
    destruct (existsb _ _); [discriminate|]. intros [= <-].
    apply String.eqb_neq in Hp. rewrite Hp. simpl.
    apply orb_true_intro; left. unfold Sample.is_dir. simpl.
    destruct (Sample.normalize p) as [|x c] eqn:Hc; [reflexivity|].
    apply existsb_exists. exists (x :: c). split.
    + apply in_or_app; left. apply prefixes_self.
    + apply path_eqb_refl.
  - intros p st r st'. unfold Sample.mkdir.
    destruct (existsb _ _); intros [= <- <-]; reflexivity.
  - intros p s st st'. unfold Sample.write, Sample.read.
    destruct (String.eqb p EmptyString); [discriminate|].
    destruct (Sample.is_dir st _); [discriminate|].
    destruct (Sample.is_dir st _); [|discriminate].
    intros [= <-]. simpl. now rewrite path_eqb_refl.
  - intros im [w h] im'. unfold Sample.resize.
    destruct (_ || _); [discriminate|]. now intros [= <-].
  - intros im im'. unfold Sample.to_mode.
    destruct (_ && _); [|discriminate]. now intros [= <-].
  - intros im im'. unfold Sample.to_mode. simpl.
    destruct (Sample.well_formed im) eqn:Hwf; [|discriminate].
    intros [= <-]. unfold greyscale, width, height. simpl. split.
    + rewrite length_map. unfold Sample.well_formed in Hwf.
      apply andb_prop in Hwf as [_ Hwf]. now apply Z.eqb_eq in Hwf.
    + apply forallb_forall. intros p Hp.
      apply in_map_iff in Hp as (q & <- & _). apply luma_ok.
Qed.

(** ** Floats: no overflow on moderate operands *)

Lemma digits2_pos_bounds (p : positive) :
  2 ^ (Z.pos (digits2_pos p) - 1) <= Z.pos p < 2 ^ Z.pos (digits2_pos p).
Proof.
  induction p as [p IH|p IH|]; cbn [digits2_pos].
  - rewrite Pos2Z.inj_succ, Z.pow_succ_r by lia.
    replace (Z.succ (Z.pos (digits2_pos p)) - 1)
      with (Z.succ (Z.pos (digits2_pos p) - 1)) by lia.
    rewrite Z.pow_succ_r by lia. lia.
  - rewrite Pos2Z.inj_succ, Z.pow_succ_r by lia.
    replace (Z.succ (Z.pos (digits2_pos p)) - 1)
      with (Z.succ (Z.pos (digits2_pos p) - 1)) by lia.
    rewrite Z.pow_succ_r by lia. lia.
  - cbn. lia.
Qed.

Lemma Zdigits2_nonneg (m : Z) : 0 <= Zdigits2 m.
Proof. destruct m; cbn; lia. Qed.

Lemma Zdigits2_gt (m : Z) : 0 <= m -> m < 2 ^ Zdigits2 m.
Proof.
  destruct m as [|p|p]; cbn [Zdigits2]; intros H; [cbn; lia | | lia].
  apply digits2_pos_bounds.
Qed.

Lemma Zdigits2_le (m k : Z) : 0 <= m -> 0 <= k -> m < 2 ^ k -> Zdigits2 m <= k.
Proof.
  intros H0 Hk Hm. destruct m as [|p|p]; cbn [Zdigits2]; [assumption | | lia].
  pose proof (digits2_pos_bounds p) as [Hlo _].
  assert (H : 2 ^ (Z.pos (digits2_pos p) - 1) < 2 ^ k) by lia.
  apply Z.pow_lt_mono_r_iff in H; lia.
Qed.

Lemma Zdigits2_mul_pow (m n : Z) :
  0 <= m -> 0 <= n -> Zdigits2 (m * 2 ^ n) <= Zdigits2 m + n.
Proof.
  intros Hm Hn. pose proof (Zdigits2_nonneg m).
  assert (0 < 2 ^ n) by (apply Z.pow_pos_nonneg; lia).
  apply Zdigits2_le; [nia | lia |].
  rewrite Z.pow_add_r by lia.
  pose proof (Zdigits2_gt m Hm). nia.
Qed.

Lemma Zdigits2_div_pow (m n : Z) :
  0 <= m -> 0 <= n -> Zdigits2 (m / 2 ^ n) <= Z.max 0 (Zdigits2 m - n).
Proof.
  intros Hm Hn. pose proof (Zdigits2_nonneg m) as Hd.
  pose proof (Zdigits2_gt m Hm) as Hlt.
  assert (Hp : 0 < 2 ^ n) by (apply Z.pow_pos_nonneg; lia).
  apply Zdigits2_le; [apply Z.div_pos; lia | lia |].
  destruct (Z.le_gt_cases n (Zdigits2 m)) as [Hle|Hgt].
  - rewrite Z.max_r by lia.
    apply Z.div_lt_upper_bound; [assumption|].
    rewrite <- Z.pow_add_r by lia. now replace (n + (Zdigits2 m - n)) with (Zdigits2 m) by lia.
  - rewrite Z.max_l by lia.
    rewrite Z.div_small; [cbn; lia|]. split; [assumption|].
    apply Z.lt_le_trans with (2 ^ Zdigits2 m); [assumption|].
    apply Z.pow_le_mono_r; lia.
Qed.

Lemma Zdigits2_succ (m : Z) : 0 <= m -> Zdigits2 (m + 1) <= Zdigits2 m + 1.
Proof.
  intros Hm. pose proof (Zdigits2_nonneg m). pose proof (Zdigits2_gt m Hm).
  apply Zdigits2_le; [lia | lia |]. rewrite Z.pow_add_r by lia. cbn. lia.
Qed.

Lemma Zdigits2_mono (m n : Z) : 0 <= m <= n -> Zdigits2 m <= Zdigits2 n.
Proof.
  intros [Hm Hn]. apply Zdigits2_le; [assumption | apply Zdigits2_nonneg |].
  pose proof (Zdigits2_gt n). lia.
Qed.

Lemma shr_1_m (r : shr_record) : 0 <= shr_m r -> shr_m (shr_1 r) = shr_m r / 2.
Proof.
  destruct r as [m b s]. cbn [shr_m]. intros Hm.
  destruct m as [|[p|p|]|p]; cbn [shr_1 shr_m].
  - reflexivity.
  - apply Z.div_unique with 1; lia.
  - apply Z.div_unique with 0; lia.
  - reflexivity.
  - lia.
Qed.

Lemma iter_pos_shr_m (p : positive) (r : shr_record) :
  0 <= shr_m r -> shr_m (iter_pos shr_1 p r) = shr_m r / 2 ^ Z.pos p.
Proof.
  revert r. induction p as [p IH|p IH|]; intros r Hr; cbn [iter_pos].
  - assert (H1 : 0 <= shr_m (shr_1 r)).
    { rewrite shr_1_m by assumption. apply Z.div_pos; lia. }
    assert (H2 : 0 <= shr_m (iter_pos shr_1 p (shr_1 r))).
    { rewrite IH by assumption. apply Z.div_pos; [assumption|].
      apply Z.pow_pos_nonneg; lia. }
    rewrite IH, IH, shr_1_m by assumption.
    assert (Hp : 0 < 2 ^ Z.pos p) by (apply Z.pow_pos_nonneg; lia).
    rewrite !Z.div_div by lia. f_equal.
    replace (Z.pos p~1) with (1 + Z.pos p + Z.pos p) by lia.
    rewrite !Z.pow_add_r by lia. change (2 ^ 1) with 2. ring.
  - assert (H2 : 0 <= shr_m (iter_pos shr_1 p r)).
    { rewrite IH by assumption. apply Z.div_pos; [assumption|].
      apply Z.pow_pos_nonneg; lia. }
    rewrite IH, IH by assumption.
    assert (Hp : 0 < 2 ^ Z.pos p) by (apply Z.pow_pos_nonneg; lia).
    rewrite !Z.div_div by lia. f_equal.
    replace (Z.pos p~0) with (Z.pos p + Z.pos p) by lia.
    rewrite !Z.pow_add_r by lia. ring.
  - rewrite shr_1_m by assumption. reflexivity.
Qed.

Lemma fexp_le (x B : Z) : x <= B + 53 -> -1074 <= B -> fexp prec emax x <= B.
Proof. unfold fexp, emin, prec, emax. lia. Qed.

Lemma shr_fexp_spec (m e : Z) (l : location) :
  0 <= m ->
  let r := fst (shr_fexp prec emax m e l) in
  let e' := snd (shr_fexp prec emax m e l) in
  e' = Z.max e (fexp prec emax (Zdigits2 m + e))
  /\ 0 <= shr_m r <= m
  /\ Zdigits2 (shr_m r) + e' <= Z.max (Zdigits2 m + e) e'.
Proof.
  intros Hm. unfold shr_fexp, shr.
  assert (Hrec : shr_m (shr_record_of_loc m l) = m) by (destruct l as [|[]]; reflexivity).
  destruct (fexp prec emax (Zdigits2 m + e) - e) as [|p|p] eqn:Hn; cbn [fst snd].
  - rewrite Hrec. split; [lia|]. split; lia.
  - assert (Hp : 0 < 2 ^ Z.pos p) by (apply Z.pow_pos_nonneg; lia).
    rewrite iter_pos_shr_m, Hrec by (rewrite Hrec; assumption).
    split; [lia|]. split.
    + split; [apply Z.div_pos; lia|].
      apply Z.div_le_upper_bound; [assumption|]. nia.
    + pose proof (Zdigits2_div_pow m (Z.pos p) Hm ltac:(lia)). lia.
  - rewrite Hrec. split; [lia|]. split; lia.
Qed.

Lemma round_nearest_even_bounds (m : Z) (l : location) :
  m <= round_nearest_even m l <= m + 1.
Proof.
  unfold round_nearest_even. destruct l as [|[]]; try lia.
  destruct (Z.even m); lia.
Qed.

(** Rounding a mantissa and exponent of moderate size gives no infinity. *)
Lemma binary_round_aux_small (B : Z) (s : bool) (mx ex : Z) (lx : location) :
  0 <= mx -> Zdigits2 mx + ex <= B -> ex <= B -> -1074 <= B -> B + 1 <= 971 ->
  small (B + 1) (binary_round_aux prec emax s mx ex lx).
Proof.
  intros Hm Hw He HB0 HB. unfold binary_round_aux.
  pose proof (shr_fexp_spec mx ex lx Hm) as H1. cbv zeta in H1.
  destruct (shr_fexp prec emax mx ex lx) as [r1 e1]. cbn [fst snd] in H1.
  destruct H1 as (He1 & Hr1 & Hw1).
  pose proof (round_nearest_even_bounds (shr_m r1) (loc_of_shr_record r1)) as Hrn.
  set (m2 := round_nearest_even (shr_m r1) (loc_of_shr_record r1)) in *.
  assert (Hm2 : 0 <= m2) by lia.
  assert (He1B : e1 <= B).
  { rewrite He1. apply Z.max_lub; [assumption|]. apply fexp_le; lia. }
  assert (Hd2 : Zdigits2 m2 + e1 <= B + 1).
  { assert (Zdigits2 m2 <= Zdigits2 (shr_m r1) + 1).
    { etransitivity; [apply (Zdigits2_mono m2 (shr_m r1 + 1)); lia|].
      apply Zdigits2_succ; lia. }
    lia. }
  pose proof (shr_fexp_spec m2 e1 loc_Exact Hm2) as H2. cbv zeta in H2.
  destruct (shr_fexp prec emax m2 e1 loc_Exact) as [r2 e2]. cbn [fst snd] in H2.
  destruct H2 as (He2 & Hr2 & Hw2).
  assert (He2B : e2 <= B + 1).
  { rewrite He2. apply Z.max_lub; [lia|]. apply fexp_le; lia. }
  destruct (shr_m r2) as [|m|m] eqn:Hm3; [exact I | | lia].
  assert (Hle : (e2 <=? emax - prec) = true) by (apply Z.leb_le; unfold emax, prec; lia).
  rewrite Hle. cbn [small]. lia.
Qed.

Lemma is_finite_small (B : Z) (x : float) : small B x -> is_finite x = true.
Proof. destruct x; cbn; intros H; [reflexivity | elim H | elim H | reflexivity]. Qed.

Lemma pos_iter_xO (m d : positive) :
  Z.pos (Pos.iter xO m d) = Z.pos m * 2 ^ Z.pos d.
Proof.
  induction d as [|d IH] using Pos.peano_ind.
  - cbn. lia.
  - rewrite Pos.iter_succ, Pos2Z.inj_xO, IH, Pos2Z.inj_succ, Z.pow_succ_r by lia.
    ring.
Qed.

Lemma shl_align_spec (mx : positive) (ex ex' : Z) :
  ex' <= ex ->
  snd (shl_align mx ex ex') = ex'
  /\ Z.pos (fst (shl_align mx ex ex')) = Z.pos mx * 2 ^ (ex - ex').
Proof.
  intros Hle. unfold shl_align.
  destruct (ex' - ex) as [|d|d] eqn:Hd; cbn [fst snd]; try lia.
  - replace ex' with ex by lia. rewrite Z.sub_diag. cbn. lia.
  - split; [reflexivity|]. rewrite pos_iter_xO. f_equal. f_equal. lia.
Qed.

Lemma binary_round_small (B : Z) (s : bool) (mx : positive) (ex : Z) :
  Zdigits2 (Z.pos mx) + ex <= B -> ex <= B -> -1074 <= B -> B + 1 <= 971 ->
  small (B + 1) (binary_round prec emax s mx ex).
Proof.
  intros Hw He HB0 HB. unfold binary_round.
  set (ex' := fexp prec emax (Z.pos (digits2_pos mx) + ex)).
  destruct (Z.le_gt_cases ex' ex) as [Hle|Hgt].
  - pose proof (shl_align_spec mx ex ex' Hle) as [He' Hm'].
    destruct (shl_align mx ex ex') as [mz ez]. cbn [fst snd] in *. subst ez.
    apply binary_round_aux_small; try lia.
    rewrite Hm'.
    pose proof (Zdigits2_mul_pow (Z.pos mx) (ex - ex') ltac:(lia) ltac:(lia)). lia.
  - unfold shl_align.
    destruct (ex' - ex) as [|d|d] eqn:Hd; try lia.
    apply binary_round_aux_small; lia.
Qed.

Lemma binary_normalize_small (B : Z) (m e : Z) :
  Zdigits2 (Z.abs m) + e <= B -> e <= B -> -1074 <= B -> B + 1 <= 971 ->
  small (B + 1) (binary_normalize prec emax m e false).
Proof.
  intros Hw He HB0 HB. unfold binary_normalize.
  destruct m as [|p|p]; [exact I | |]; apply binary_round_small; assumption.
Qed.

(** The quotient of two integers has at most as many digits as the
    dividend. *)
Lemma SFdiv_small (B : Z) (sa sb : bool) (ma mb : positive) :
  Zdigits2 (Z.pos ma) <= B -> 0 <= B -> B + 1 <= 971 ->
  small (B + 1) (SFdiv prec emax (S754_finite sa ma 0) (S754_finite sb mb 0)).
Proof.
  intros Ha HB0 HB. unfold SFdiv, SFdiv_core_binary.
  set (e' := Z.min (fexp prec emax (Zdigits2 (Z.pos ma) + 0 - (Zdigits2 (Z.pos mb) + 0)))
               (0 - 0)).
  assert (He' : e' <= 0) by (subst e'; lia).
  set (m' := match 0 - 0 - e' with
             | 0 => Z.pos ma
             | Z.pos _ => Z.shiftl (Z.pos ma) (0 - 0 - e')
             | Z.neg _ => 0
             end).
  assert (Hm' : m' = Z.pos ma * 2 ^ (- e')).
  { subst m'. destruct (0 - 0 - e') as [|p|p] eqn:Hs; try lia.
    - replace (- e') with 0 by lia. cbn. lia.
    - rewrite Z.shiftl_mul_pow2 by lia. f_equal. f_equal. lia. }
  assert (Hpow : 0 < 2 ^ (- e')) by (apply Z.pow_pos_nonneg; lia).
  assert (Hm0 : 0 <= m') by nia.
  assert (Hq : fst (Z.div_eucl m' (Z.pos mb)) = m' / Z.pos mb) by reflexivity.
  destruct (Z.div_eucl m' (Z.pos mb)) as [q r]. cbn [fst] in Hq. subst q.
  assert (Hqn : 0 <= m' / Z.pos mb <= m').
  { split; [apply Z.div_pos; lia|]. apply Z.div_le_upper_bound; [lia|]. nia. }
  apply binary_round_aux_small; try lia.
  pose proof (Zdigits2_mono _ _ Hqn).
  pose proof (Zdigits2_mul_pow (Z.pos ma) (- e') ltac:(lia) ltac:(lia)).
  rewrite <- Hm' in *. lia.
Qed.

(** [a / b] on ints of moderate size raises nothing but ZeroDivisionError. *)
Lemma truediv_small (B a b : Z) :
  b <> 0 -> Z.abs a < 2 ^ B -> 0 <= B -> B + 1 <= 971 ->
  exists t, truediv a b = Ok t /\ small (B + 1) t.
Proof.
  intros Hb Ha HB0 HB. unfold truediv.
  assert (Hd : forall p, Z.abs a = Z.pos p -> Zdigits2 (Z.pos p) <= B).
  { intros p Hp. apply Zdigits2_le; lia. }
  destruct b as [|pb|pb]; [congruence | |];
    (destruct a as [|pa|pa]; [eexists; split; [reflexivity | exact I] | |]);
    cbv zeta;
    match goal with
    | |- context [SFdiv prec emax (S754_finite ?sa ?ma 0) (S754_finite ?sb ?mb 0)] =>
        pose proof (SFdiv_small B sa sb ma mb (Hd _ eq_refl) HB0 HB) as Hsm;
        rewrite (is_finite_small _ _ Hsm);
        eexists; split; [reflexivity | exact Hsm]
    end.
Qed.

Lemma fmul_0_3_small (B : Z) (t : float) :
  small B t -> -1074 <= B -> B + 1 <= 971 -> small (B + 1) (fmul t float_0_3).
Proof.
  intros Ht HB0 HB. destruct t as [s| | |s m e]; cbn [small] in Ht; try contradiction.
  - exact I.
  - destruct Ht as [Hw He]. unfold fmul, float_0_3, SFmul.
    apply binary_round_aux_small; try lia.
    rewrite Pos2Z.inj_mul.
    assert (Hc : Z.pos 5404319552844595 < 2 ^ 53) by (vm_compute; reflexivity).
    pose proof (Zdigits2_gt (Z.pos m) ltac:(lia)) as Hm.
    pose proof (Zdigits2_nonneg (Z.pos m)) as Hd.
    assert (Zdigits2 (Z.pos m * Z.pos 5404319552844595) <= Zdigits2 (Z.pos m) + 53).
    { apply Zdigits2_le; [lia | lia |]. rewrite Z.pow_add_r by lia. nia. }
    lia.
Qed.

(** [int(x)] of a moderate float is a moderate integer. *)
Lemma int_of_float_small (B : Z) (x : float) :
  small B x -> 0 <= B ->
  exists k, int_of_float x = Ok k /\ Z.abs k < 2 ^ B.
Proof.
  intros Hx HB. assert (HpB : 0 < 2 ^ B) by (apply Z.pow_pos_nonneg; lia).
  destruct x as [s| | |s m e]; cbn [small] in Hx; try contradiction.
  - exists 0. split; [reflexivity | cbn; lia].
  - destruct Hx as [Hw He]. cbn [int_of_float]. eexists. split; [reflexivity|].
    pose proof (Zdigits2_gt (Z.pos m) ltac:(lia)) as Hm.
    pose proof (Zdigits2_nonneg (Z.pos m)) as Hd.
    set (d := Zdigits2 (Z.pos m)) in *.
    assert (Ha : 0 <= (if 0 <=? e then Z.pos m * 2 ^ e else Z.pos m / 2 ^ (- e)) < 2 ^ B).
    { destruct (0 <=? e) eqn:E0.
      - apply Z.leb_le in E0.
        assert (0 < 2 ^ e) by (apply Z.pow_pos_nonneg; lia).
        split; [nia|].
        apply Z.lt_le_trans with (2 ^ (d + e)).
        + rewrite Z.pow_add_r by lia. nia.
        + apply Z.pow_le_mono_r; lia.
      - apply Z.leb_gt in E0.
        assert (Hp : 0 < 2 ^ (- e)) by (apply Z.pow_pos_nonneg; lia).
        split; [apply Z.div_pos; lia|].
        destruct (Z.le_gt_cases 0 (d + e)) as [Hge|Hlt].
        + apply Z.lt_le_trans with (2 ^ (d + e)); [|apply Z.pow_le_mono_r; lia].
          apply Z.div_lt_upper_bound; [assumption|].
          rewrite <- Z.pow_add_r by lia. now replace (- e + (d + e)) with d by lia.
        + rewrite Z.div_small; [assumption|]. split; [lia|].
          apply Z.lt_le_trans with (2 ^ d); [assumption|].
          apply Z.pow_le_mono_r; lia. }
    destruct s; lia.
Qed.

Lemma float_of_int_small (B k : Z) :
  Z.abs k < 2 ^ B -> 0 <= B -> B + 1 <= 971 ->
  exists k', float_of_int k = Ok k' /\ small (B + 1) k'.
Proof.
  intros Hk HB0 HB. unfold float_of_int.
  assert (Hsm : small (B + 1) (binary_normalize prec emax k 0 false)).
  { apply binary_normalize_small; try lia.
    assert (Zdigits2 (Z.abs k) <= B) by (apply Zdigits2_le; lia). lia. }
  cbv zeta. rewrite (is_finite_small _ _ Hsm). eexists. split; [reflexivity | exact Hsm].
Qed.

Lemma fsub_small (B : Z) (x y : float) :
  small B x -> small B y -> -1074 <= B -> B + 2 <= 971 ->
  small (B + 2) (fsub x y).
Proof.
  intros Hx Hy HB0 HB.
  destruct x as [sx| | |sx mx ex]; cbn [small] in Hx; try contradiction;
    destruct y as [sy| | |sy my ey]; cbn [small] in Hy; try contradiction.
  - unfold fsub, SFsub. destruct sx, sy; exact I.
  - unfold fsub, SFsub. cbn [small]. lia.
  - unfold fsub, SFsub. cbn [small]. lia.
  - destruct Hx as [Hwx Hex], Hy as [Hwy Hey]. unfold fsub, SFsub.
    set (ez := Z.min ex ey).
    pose proof (shl_align_spec mx ex ez ltac:(subst ez; lia)) as [_ Hax].
    pose proof (shl_align_spec my ey ez ltac:(subst ez; lia)) as [_ Hay].
    set (ax := Z.pos (fst (shl_align mx ex ez))) in *.
    set (ay := Z.pos (fst (shl_align my ey ez))) in *.
    replace (B + 2) with (B + 1 + 1) by lia.
    apply binary_normalize_small; try (subst ez; lia).
    pose proof (Zdigits2_gt (Z.pos mx) ltac:(lia)) as Hmx.
    pose proof (Zdigits2_gt (Z.pos my) ltac:(lia)) as Hmy.
    pose proof (Zdigits2_nonneg (Z.pos mx)) as Hdx.
    pose proof (Zdigits2_nonneg (Z.pos my)) as Hdy.
    assert (Hpx : 0 < 2 ^ (ex - ez)) by (apply Z.pow_pos_nonneg; subst ez; lia).
    assert (Hpy : 0 < 2 ^ (ey - ez)) by (apply Z.pow_pos_nonneg; subst ez; lia).
    assert (Hbx : ax < 2 ^ (B - ez)).
    { rewrite Hax. apply Z.lt_le_trans with (2 ^ (Zdigits2 (Z.pos mx) + (ex - ez))).
      - rewrite Z.pow_add_r by (subst ez; lia). nia.
      - apply Z.pow_le_mono_r; lia. }
    assert (Hby : ay < 2 ^ (B - ez)).
    { rewrite Hay. apply Z.lt_le_trans with (2 ^ (Zdigits2 (Z.pos my) + (ey - ez))).
      - rewrite Z.pow_add_r by (subst ez; lia). nia.
      - apply Z.pow_le_mono_r; lia. }
    assert (Hax0 : 0 < ax) by (subst ax; lia).
    assert (Hay0 : 0 < ay) by (subst ay; lia).
    assert (Hd1 : 1 <= Zdigits2 (Z.pos mx)) by (cbn [Zdigits2]; lia).
    assert (Hez : ez < B) by (subst ez; lia).
    assert (Habs : Z.abs (cond_Zopp sx ax - cond_Zopp sy ay) < 2 ^ (B - ez + 1)).
    { rewrite Z.pow_add_r by lia. change (2 ^ 1) with 2.
      unfold cond_Zopp. destruct sx, sy; lia. }
    assert (Zdigits2 (Z.abs (cond_Zopp sx ax - cond_Zopp sy ay)) <= B - ez + 1)
      by (apply Zdigits2_le; lia).
    lia.
Qed.

(** For a divisor other than 0 and a dividend below 2^900 in absolute
    value, the floats of the resizer stay in range: the height is computed
    and no exception is raised. *)
Lemma untruncated_height_total (tw H W : Z) :
  W <> 0 -> Z.abs (tw * H) < 2 ^ 900 ->
  exists h, untruncated_height tw H W = Ok h.
Proof.
  intros HW Hb. unfold untruncated_height.
  destruct (truediv_small 900 (tw * H) W HW Hb) as (t & -> & Ht); [lia | lia |].
  cbn [result_bind].
  pose proof (fmul_0_3_small _ t Ht ltac:(lia) ltac:(lia)) as Hp.
  destruct (int_of_float_small _ _ Hp ltac:(lia)) as (k & -> & Hk).
  cbn [result_bind].
  destruct (float_of_int_small _ k Hk ltac:(lia) ltac:(lia)) as (k' & -> & Hk').
  cbn [result_bind].
  assert (Ht' : small (900 + 1 + 1 + 1) t).
  { destruct t; cbn [small] in *; try contradiction; [exact I | lia]. }
  pose proof (fsub_small _ t k' Ht' Hk' ltac:(lia) ltac:(lia)) as Hs.
  destruct (int_of_float_small _ _ Hs ltac:(lia)) as (h & -> & _).
  now exists h.
Qed.

(** ** The resizer *)

Lemma result_bind_ok {A B : Type} (r : result A) (k : A -> result B) (b : B) :
  result_bind r k = Ok b -> exists a, r = Ok a /\ k a = Ok b.
Proof. destruct r as [a|e]; simpl; [now exists a | discriminate]. Qed.

(** With the arithmetic done, [resize_image] is the library's [resize] at
    the computed size, an exception of it caught and logged. *)
Lemma resize_image_eq (E : Env) (self : AsciiArtConverter) (im : Image)
  (W H h : Z) (w : World E) :
  image self = Some im -> size im = (W, H) ->
  untruncated_height (target_width self) H W = Ok h ->
  let w' := {| logged := (logged w ++ [(DEBUG, Msg_og_size W H)])
                         ++ [(DEBUG, Msg_target_size (target_width self) h)];
               fs := fs w |} in
  resize_image E self w
  = match Image_resize E im (target_width self, h) with
    | Ok resized => (Returns (Some resized), w')
    | Err e =>
        (Returns None,
         {| logged := logged w' ++ [(ERROR, Msg_resize_failed e)]; fs := fs w |})
    end.
Proof.
  intros Him Hsize Hh.
  unfold untruncated_height in Hh.
  apply result_bind_ok in Hh as (t & Ht & Hh).
  apply result_bind_ok in Hh as (k & Hk & Hh).
  apply result_bind_ok in Hh as (k' & Hk' & Hh).
  unfold resize_image. rewrite Him. unfold_prog. rewrite Hsize. cbn.
  rewrite Ht. cbn. rewrite Hk. cbn. rewrite Hk'. cbn. rewrite Hh. cbn.
  destruct (Image_resize E im (target_width self, h)); reflexivity.
Qed.

(** C1 (as amended): for every image of width W >= 1 and height H >= 1 and
    every target width tw (with |tw*H| < 2^900, so that the floats stay in
    range) the resizer raises nothing and asks the library for the size
    (tw, h) with h = int(t - int(t * 0.3)), where t = tw*H/W is the float
    quotient, not truncated: it returns the image the library resizes to
    that size, whose width is exactly tw and whose height is exactly h. *)
Theorem resize_image_size (E : Env) (self : AsciiArtConverter) (im : Image)
  (W H : Z) (w : World E) :
  lawful E ->
  image self = Some im -> size im = (W, H) -> 1 <= W -> 1 <= H ->
  Z.abs (target_width self * H) < 2 ^ 900 ->
  exists h,
    untruncated_height (target_width self) H W = Ok h
    /\ (forall resized,
          Image_resize E im (target_width self, h) = Ok resized ->
          fst (resize_image E self w) = Returns (Some resized))
    /\ (forall resized,
          fst (resize_image E self w) = Returns (Some resized) ->
          Image_resize E im (target_width self, h) = Ok resized
          /\ width resized = target_width self /\ height resized = h).
Proof.
  intros L Him Hsize HW _ Hb.
  destruct (untruncated_height_total (target_width self) H W) as [h Hh];
    [lia | assumption |].
  exists h. split; [assumption|].
  rewrite (resize_image_eq E self im W H h w Him Hsize Hh).
  split; intros resized Hr.
  - now rewrite Hr.
  - destruct (Image_resize E im (target_width self, h)) as [r|e] eqn:HR;
      simpl in Hr; [|discriminate].
    injection Hr as <-. split; [reflexivity|].
    unfold width, height. now rewrite (resize_size E L _ _ _ HR).
Qed.

(** The scenario of the specification: a 200x100 image at target width 120
    is resized to 120x42. *)
Example height_of_200x100 : untruncated_height 120 100 200 = Ok 42.
Proof. vm_compute. reflexivity. Qed.

(** An instance: the 200x100 image in the sample environment. *)
Lemma resize_image_size_witness :
  let self := entered (Sample.config "in.png" "output") (Sample.uniform 200 100 255) in
  let w := Sample.fresh Sample.empty in
  exists h,
    untruncated_height (target_width self) 100 200 = Ok h
    /\ (forall resized,
          Image_resize Sample.env (Sample.uniform 200 100 255) (target_width self, h)
          = Ok resized ->
          fst (resize_image Sample.env self w) = Returns (Some resized))
    /\ (forall resized,
          fst (resize_image Sample.env self w) = Returns (Some resized) ->
          Image_resize Sample.env (Sample.uniform 200 100 255) (target_width self, h)
          = Ok resized
          /\ width resized = target_width self /\ height resized = h).
Proof.
  apply (resize_image_size Sample.env _ (Sample.uniform 200 100 255) 200 100).
  - exact sample_lawful.
  - reflexivity.
  - reflexivity.
  - lia.
  - lia.
  - vm_compute. reflexivity.
Defined.

(** C1, as stated, fails: a 240x7 image at target width 120 has the
    quotient 3.5; the resizer takes 30% of 3.5 and returns an image of
    height 2, where truncating first gives 3 - int(0.9) = 3. *)
Lemma resize_height_not_truncated :
  option_map size
    (match fst (resize_image Sample.env
                  (entered (Sample.config "in.png" "output") (Sample.uniform 240 7 255))
                  (Sample.fresh Sample.empty)) with
     | Returns r => r
     | _ => None
     end) = Some (120, 2)
  /\ untruncated_height 120 7 240 = Ok 2
  /\ truncated_height 120 7 240 = Ok 3.
Proof. vm_compute. repeat split. Qed.

(** ** The constructor *)

Lemma load_image_eq (E : Env) (self : AsciiArtConverter) (w : World E) :
  load_image E self w
  = let w1 := {| logged := logged w ++ [(INFO, Msg_loading (path_to_image self))];
                 fs := fs w |} in
    match Image_open E (path_to_image self) (fs w) with
    | Ok im =>
        (Returns {| _is_context_manager := _is_context_manager self;
                    path_to_image := path_to_image self;
                    image := Some im;
                    target_width := target_width self |}, w1)
    | Err e =>
        if is_FileNotFoundError e
        then (Exits 1,
              {| logged := logged w1
                           ++ [(ERROR, Msg_unable_to_open (path_to_image self) e)];
                 fs := fs w |})
        else (Raises e, w1)
    end.
Proof.
  unfold load_image. unfold_prog. cbn.
  destruct (Image_open E (path_to_image self) (fs w)) as [im|e]; cbn;
    [reflexivity|].
  destruct (is_FileNotFoundError e); reflexivity.
Qed.

(** C3 (as amended): the target width parameter of the converter defaults
    to 100 when no value is supplied; the entry point supplies 120, which is
    the column count of this program's conversion. *)
Theorem target_width_default_and_main (E : Env) (cfg : Config) (w : World E)
  (im : Image) :
  Image_open E (image_path cfg) (fs w) = Ok im ->
  (exists self w',
     __init__ E (image_path cfg) None w = (Returns self, w')
     /\ target_width self = 100)
  /\ (exists self w',
        main_converter E cfg w = (Returns self, w')
        /\ target_width self = 120).
Proof.
  intros Hopen. unfold main_converter, __init__.
  rewrite !load_image_eq. cbn. rewrite Hopen.
  split; eexists; eexists; split; reflexivity.
Qed.

(** An instance: a picture on the sample disk. *)
Lemma target_width_default_and_main_witness :
  let cfg := Sample.config "in.png" "output" in
  let w := Sample.fresh (Sample.holding "in.png" (Sample.Picture (Sample.uniform 2 2 0))) in
  (exists self w',
     __init__ Sample.env (image_path cfg) None w = (Returns self, w')
     /\ target_width self = 100)
  /\ (exists self w',
        main_converter Sample.env cfg w = (Returns self, w')
        /\ target_width self = 120).
Proof.
  apply (target_width_default_and_main Sample.env _ _ (Sample.uniform 2 2 0)).
  reflexivity.
Defined.

(** C3, as stated, fails: built without a target width, the converter has
    the width 100, not 120. *)
Lemma target_width_default_is_not_120 :
  option_map target_width
    (match fst (__init__ Sample.env "in.png" None
                  (Sample.fresh (Sample.holding "in.png"
                                   (Sample.Picture (Sample.uniform 2 2 0))))) with
     | Returns self => Some self
     | _ => None
     end) = Some 100
  /\ (100 =? 120) = false.
Proof. split; reflexivity. Qed.

(** ** The stages of the pipeline *)

Lemma extend_extend {E : Env} (w : World E) (a b : list log_record) :
  extend (extend w a) b = extend w (a ++ b).
Proof. unfold extend. simpl. now rewrite app_assoc. Qed.

Lemma log_eq {E : Env} (l : level) (m : message) (w : World E) :
  log l m w = (Returns tt, extend w [(l, m)]).
Proof. reflexivity. Qed.

(** [resize_image] never raises and leaves the file system alone; its
    result and what it logs do not depend on the world it runs in. *)
Lemma resize_image_stage (E : Env) (self : AsciiArtConverter) :
  exists r extra,
    (forall w, resize_image E self w = (Returns r, extend w extra))
    /\ (r = None -> exists e, In (ERROR, Msg_resize_failed e) extra)
    /\ (forall resized, r = Some resized ->
        exists im h, image self = Some im
                     /\ Image_resize E im (target_width self, h) = Ok resized).
Proof.
  unfold resize_image. unfold_prog.
  destruct (image self) as [im|] eqn:Him; cbn.
  2:{ exists None, [(ERROR, Msg_resize_failed AttributeError)].
      split; [reflexivity|]. split; [|discriminate].
      intros _. eexists. left. reflexivity. }
  destruct (size im) as [W H]. cbn.
  destruct (truediv (target_width self * H) W) as [t|e] eqn:Ht; cbn.
  2:{ exists None, [(DEBUG, Msg_og_size W H); (ERROR, Msg_resize_failed e)].
      split; [intros w; unfold extend; cbn; now rewrite <- app_assoc|].
      split; [|discriminate]. intros _. eexists. right. left. reflexivity. }
  destruct (int_of_float (fmul t float_0_3)) as [k|e] eqn:Hk; cbn.
  2:{ exists None, [(DEBUG, Msg_og_size W H); (ERROR, Msg_resize_failed e)].
      split; [intros w; unfold extend; cbn; now rewrite <- app_assoc|].
      split; [|discriminate]. intros _. eexists. right. left. reflexivity. }
  destruct (float_of_int k) as [k'|e] eqn:Hk'; cbn.
  2:{ exists None, [(DEBUG, Msg_og_size W H); (ERROR, Msg_resize_failed e)].
      split; [intros w; unfold extend; cbn; now rewrite <- app_assoc|].
      split; [|discriminate]. intros _. eexists. right. left. reflexivity. }
  destruct (int_of_float (fsub t k')) as [h|e] eqn:Hh; cbn.
  2:{ exists None, [(DEBUG, Msg_og_size W H); (ERROR, Msg_resize_failed e)].
      split; [intros w; unfold extend; cbn; now rewrite <- app_assoc|].
      split; [|discriminate]. intros _. eexists. right. left. reflexivity. }
  destruct (Image_resize E im (target_width self, h)) as [resized|e] eqn:HR; cbn.
  - exists (Some resized),
      [(DEBUG, Msg_og_size W H); (DEBUG, Msg_target_size (target_width self) h)].
    split; [intros w; unfold extend; cbn; now rewrite <- app_assoc|].
    split; [discriminate|].
    intros r [= <-]. now exists im, h.
  - exists None,
      [(DEBUG, Msg_og_size W H); (DEBUG, Msg_target_size (target_width self) h);
       (ERROR, Msg_resize_failed e)].
    split; [intros w; unfold extend; cbn; now rewrite <- !app_assoc|].
    split; [|discriminate]. intros _. eexists. right. right. left. reflexivity.
Qed.

Lemma convert_to_greyscale_eq (E : Env) (x : option Image) (w : World E) :
  convert_to_greyscale E x w
  = match x with
    | None => (Returns None, extend w [(ERROR, Msg_greyscale_failed AttributeError)])
    | Some im =>
        match Image_convert E im "L"%string with
        | Ok grey => (Returns (Some grey), w)
        | Err e => (Returns None, extend w [(ERROR, Msg_greyscale_failed e)])
        end
    end.
Proof.
  unfold convert_to_greyscale. unfold_prog.
  destruct x as [im|]; cbn; [|reflexivity].
  destruct (Image_convert E im "L"%string); reflexivity.
Qed.

Lemma convert_pixel_to_ascii_eq (E : Env) (x : option Image) (w : World E) :
  convert_pixel_to_ascii E x w
  = match x with
    | None => (Returns None, extend w [(ERROR, Msg_ascii_failed AttributeError)])
    | Some im =>
        match for_pixels (getdata im) EmptyString with
        | Ok s =>
            (Returns (Some s),
             extend w [(DEBUG, Msg_pixels (getdata im)); (DEBUG, Msg_ascii s)])
        | Err e => (Returns None, extend w [(ERROR, Msg_ascii_failed e)])
        end
    end.
Proof.
  unfold convert_pixel_to_ascii. unfold_prog.
  destruct x as [im|]; cbn; [|reflexivity].
  destruct (for_pixels (getdata im) EmptyString); cbn; [|reflexivity].
  unfold extend; cbn. now rewrite <- app_assoc.
Qed.

Lemma __exit___eq (E : Env) (self : AsciiArtConverter) (w : World E) :
  exists extra, __exit__ E self w = (Returns tt, extend w extra).
Proof.
  unfold __exit__. unfold_prog.
  destruct (image self) as [im|]; cbn.
  - destruct (Image_close E im) as [[]|e]; cbn.
    + now exists [(INFO, Msg_closing)].
    + exists [(INFO, Msg_closing); (ERROR, Msg_close_failed e)].
      unfold extend; cbn. now rewrite <- app_assoc.
  - exists []. unfold extend. cbn. rewrite app_nil_r. now destruct w.
Qed.

Lemma create_output_directory_eq (E : Env) (cfg : Config) (w : World E) :
  create_output_directory E cfg w
  = if os_path_exists E (output_folder cfg) (fs w) then (Returns tt, w)
    else
      let w1 := extend w [(DEBUG, Msg_creating_folder (output_folder cfg))] in
      match Path_mkdir E (output_folder cfg) (fs w) with
      | (Ok _, st) => (Returns tt, {| logged := logged w1; fs := st |})
      | (Err e, st) =>
          (Returns tt,
           {| logged := logged w1 ++ [(ERROR, Msg_folder_failed e)]; fs := st |})
      end.
Proof.
  unfold create_output_directory. unfold_prog. cbn.
  destruct (os_path_exists E (output_folder cfg) (fs w)); cbn; [reflexivity|].
  destruct (Path_mkdir E (output_folder cfg) (fs w)) as [[[]|e] st]; reflexivity.
Qed.

Lemma write_ascii_to_file_eq (E : Env) (cfg : Config) (text name : string)
  (w : World E) :
  write_ascii_to_file E cfg text (Some name) w
  = let w1 := extend w [(INFO, Msg_new_ascii (output_path cfg) name)] in
    match open_w_write E (os_path_join (output_path cfg) name) text (fs w) with
    | (Ok _, st) => (Returns tt, {| logged := logged w1; fs := st |})
    | (Err e, st) =>
        if is_OSError e
        then (Returns tt,
              {| logged := logged w1 ++ [(ERROR, Msg_write_failed e)]; fs := st |})
        else (Raises e, {| logged := logged w1; fs := st |})
    end.
Proof.
  unfold write_ascii_to_file. unfold_prog. cbn.
  destruct (open_w_write E _ text (fs w)) as [[[]|e] st]; cbn; [reflexivity|].
  destruct (is_OSError e); reflexivity.
Qed.

(** ** [convert] and the entry point *)

Lemma convert_outcome (E : Env) (cfg : Config) (self : AsciiArtConverter) :
  exists o extra,
    (forall w, convert E cfg self w = (o, extend w extra))
    /\ (forall w0, fst (resize_image E self w0) = Returns None ->
        o = Raises TypeError
        /\ In (ERROR, Msg_greyscale_failed AttributeError) extra
        /\ In (ERROR, Msg_ascii_failed AttributeError) extra)
    /\ (forall w0 resized,
        fst (resize_image E self w0) = Returns (Some resized) ->
        match Image_convert E resized "L"%string with
        | Err e =>
            o = Raises TypeError
            /\ In (ERROR, Msg_greyscale_failed e) extra
            /\ In (ERROR, Msg_ascii_failed AttributeError) extra
        | Ok grey =>
            match for_pixels (getdata grey) EmptyString with
            | Err e => o = Raises TypeError /\ In (ERROR, Msg_ascii_failed e) extra
            | Ok s =>
                o = match reflow s (width grey) with
                    | Ok text => Returns text
                    | Err e => Raises e
                    end
            end
        end).
Proof.
  destruct (resize_image_stage E self) as (r & ex & Hr & _).
  unfold convert. unfold bind at 1. setoid_rewrite log_eq.
  unfold bind at 1. setoid_rewrite Hr. setoid_rewrite extend_extend.
  unfold bind at 1. setoid_rewrite convert_to_greyscale_eq.
  destruct r as [resized|].
  - destruct (Image_convert E resized "L"%string) as [grey|e] eqn:HC.
    + unfold bind at 1. setoid_rewrite convert_pixel_to_ascii_eq.
      destruct (for_pixels (getdata grey) EmptyString) as [s|e] eqn:HP.
      * unfold_prog. cbn. setoid_rewrite extend_extend.
        destruct (reflow s (width grey)) as [text|e] eqn:HF;
          (eexists; eexists; split; [intros w; reflexivity|]);
          (split; [intros w0 H0; cbn in H0; discriminate|]);
          intros w0 x H0; cbn in H0; injection H0 as <-;
          rewrite HC, HP, HF; reflexivity.
      * unfold_prog. cbn. setoid_rewrite extend_extend.
        eexists; eexists; split; [intros w; reflexivity|].
        split; [intros w0 H0; cbn in H0; discriminate|].
        intros w0 x H0; cbn in H0; injection H0 as <-.
        rewrite HC, HP. split; [reflexivity|].
        find_record.
    + unfold bind at 1. setoid_rewrite extend_extend.
      setoid_rewrite convert_pixel_to_ascii_eq.
      unfold_prog. cbn. setoid_rewrite extend_extend.
      eexists; eexists; split; [intros w; reflexivity|].
      split; [intros w0 H0; cbn in H0; discriminate|].
      intros w0 x H0; cbn in H0; injection H0 as <-.
      rewrite HC. split; [reflexivity|].
      split; find_record.
  - unfold bind at 1. setoid_rewrite extend_extend.
    setoid_rewrite convert_pixel_to_ascii_eq.
    unfold_prog. cbn. setoid_rewrite extend_extend.
    eexists; eexists; split; [intros w; reflexivity|].
    split; [|intros w0 x H0; cbn in H0; discriminate].
    intros _ _. split; [reflexivity|].
    split; find_record.
Qed.

Lemma create_output_directory_returns (E : Env) (cfg : Config) (w : World E) :
  create_output_directory E cfg w
  = (Returns tt, snd (create_output_directory E cfg w)).
Proof.
  rewrite create_output_directory_eq.
  destruct (os_path_exists E (output_folder cfg) (fs w)); [reflexivity|].
  cbn. destruct (Path_mkdir E (output_folder cfg) (fs w)) as [[[]|e] st'];
    reflexivity.
Qed.

(** A run, by the result of opening the image. *)
Lemma run_cases (E : Env) (cfg : Config) (st : FS E) :
  let w1 := world_at_open E cfg st in
  let loading := (INFO, Msg_loading (image_path cfg)) in
  match Image_open E (image_path cfg) (fs w1) with
  | Err e =>
      run E cfg st
      = if is_FileNotFoundError e
        then (Exits 1,
              extend w1 [loading; (ERROR, Msg_unable_to_open (image_path cfg) e)])
        else (Raises e, extend w1 [loading])
  | Ok im =>
      exists extra,
        run E cfg st
        = (fst (block E cfg (entered cfg im) (extend w1 [loading])),
           extend (snd (block E cfg (entered cfg im) (extend w1 [loading]))) extra)
  end.
Proof.
  intros w1 loading.
  assert (Hrun : run E cfg st
                 = with_as E (main_converter E cfg)
                     (fun aac =>
                        ascii_string <- convert E cfg aac;;
                        write_ascii_to_file E cfg ascii_string
                          (Some (output_file_name cfg))) w1).
  { unfold run, main. unfold bind at 1. cbn.
    unfold bind at 1. rewrite create_output_directory_returns. reflexivity. }
  destruct (Image_open E (image_path cfg) (fs w1)) as [im|e] eqn:Hopen;
    rewrite Hrun; unfold with_as, main_converter, __init__;
    unfold bind at 1; rewrite load_image_eq;
    cbn [path_to_image target_width _is_context_manager image];
    rewrite Hopen.
  - change (exists extra,
              (let '(r, w0) := block E cfg (entered cfg im) (extend w1 [loading]) in
               match __exit__ E (entered cfg im) w0 with
               | (Returns _, w2) => (r, w2)
               | (Raises e, w2) => (Raises e, w2)
               | (Exits n, w2) => (Exits n, w2)
               end)
              = (fst (block E cfg (entered cfg im) (extend w1 [loading])),
                 extend (snd (block E cfg (entered cfg im) (extend w1 [loading])))
                   extra)).
    destruct (block E cfg (entered cfg im) (extend w1 [loading])) as [r w3].
    destruct (__exit___eq E (entered cfg im) w3) as [extra ->].
    now exists extra.
  - destruct (is_FileNotFoundError e); unfold extend; cbn;
      rewrite <- ?app_assoc; reflexivity.
Qed.

Lemma world_at_open_files (E : Env) (cfg : Config) (st : FS E) :
  lawful E ->
  forall q, read_text E (state_at_open E cfg st) q = read_text E st q.
Proof.
  intros L q. unfold state_at_open, world_at_open.
  rewrite create_output_directory_eq. cbn [fs].
  destruct (os_path_exists E (output_folder cfg) st); [reflexivity|].
  cbv zeta.
  destruct (Path_mkdir E (output_folder cfg) st) as [[[]|e] st'] eqn:Hm;
    cbn [snd fs]; eapply (mkdir_keeps_files E L); eassumption.
Qed.

Lemma not_FileNotFoundError (e : exn) :
  e <> FileNotFoundError -> is_FileNotFoundError e = false.
Proof. destruct e; intros H; try reflexivity. now elim H. Qed.

(** C7 (as amended): when opening the image raises FileNotFoundError the
    program logs the failure, terminates with exit status 1 and creates no
    output file; when opening raises any other exception (the path is a
    directory, or a file that is no decodable image) the exception is not
    caught: the run ends with exit status 1 and no output file as well, but
    the failure is not logged; and for every run in which the image opens,
    the conversion returns its text and the write succeeds, the exit status
    is 0 and the output file holds the text. *)
Theorem image_open_exit_status (E : Env) (cfg : Config) (st : FS E) :
  lawful E ->
  let final := run E cfg st in
  let target := os_path_join (output_path cfg) (output_file_name cfg) in
  (forall e,
     Image_open E (image_path cfg) (state_at_open E cfg st) = Err e ->
     exit_status (fst final) = 1
     /\ (forall q, read_text E (fs (snd final)) q = read_text E st q)
     /\ (e = FileNotFoundError ->
         fst final = Exits 1
         /\ In (ERROR, Msg_unable_to_open (image_path cfg) e) (logged (snd final)))
     /\ (e <> FileNotFoundError ->
         fst final = Raises e
         /\ logged (snd final)
            = logged (world_at_open E cfg st) ++ [(INFO, Msg_loading (image_path cfg))]))
  /\ (forall im w text st',
        Image_open E (image_path cfg) (state_at_open E cfg st) = Ok im ->
        fst (convert E cfg (entered cfg im) w) = Returns text ->
        open_w_write E target text (state_at_open E cfg st) = (Ok tt, st') ->
        exit_status (fst final) = 0
        /\ read_text E (fs (snd final)) target = Some text).
Proof.
  intros L final target. subst final.
  pose proof (run_cases E cfg st) as Hrun. cbv zeta in Hrun.
  fold (state_at_open E cfg st) in Hrun.
  split.
  - intros e He. rewrite He in Hrun. rewrite Hrun.
    destruct (is_FileNotFoundError e) eqn:Hfnf.
    + cbn [fst snd exit_status extend fs logged].
      split; [reflexivity|]. split; [apply world_at_open_files, L|].
      split.
      * intros ->. split; [reflexivity|]. find_record.
      * intros Hne. apply not_FileNotFoundError in Hne. congruence.
    + cbn [fst snd exit_status extend fs logged].
      split; [reflexivity|]. split; [apply world_at_open_files, L|].
      split.
      * intros ->. discriminate.
      * intros _. split; reflexivity.
  - intros im w text st' Hopen Hconv Hwrite. rewrite Hopen in Hrun.
    destruct Hrun as [extra ->]. cbn [fst snd extend fs].
    destruct (convert_outcome E cfg (entered cfg im)) as (o & ex & Hc & _).
    rewrite Hc in Hconv. cbn in Hconv. subst o.
    unfold block. unfold bind at 1 2. rewrite Hc.
    rewrite write_ascii_to_file_eq. cbv zeta. cbn [extend fs].
    fold (state_at_open E cfg st). fold target. rewrite Hwrite.
    cbn [fst snd exit_status fs]. split; [reflexivity|].
    eapply (write_read E L). eassumption.
Qed.

(** An instance: an input path that does not exist on the sample disk. *)
Lemma image_open_exit_status_witness :
  let final :=
    run Sample.env (Sample.config "missing.png" "output")
      (Sample.holding "in.png" (Sample.Picture (Sample.uniform 4 2 255))) in
  exit_status (fst final) = 1
  /\ (forall q,
        read_text Sample.env (fs (snd final)) q
        = read_text Sample.env
            (Sample.holding "in.png" (Sample.Picture (Sample.uniform 4 2 255))) q)
  /\ (FileNotFoundError = FileNotFoundError ->
      fst final = Exits 1
      /\ In (ERROR, Msg_unable_to_open "missing.png" FileNotFoundError)
           (logged (snd final)))
  /\ (FileNotFoundError <> FileNotFoundError ->
      fst final = Raises FileNotFoundError
      /\ logged (snd final)
         = logged (world_at_open Sample.env (Sample.config "missing.png" "output")
                     (Sample.holding "in.png" (Sample.Picture (Sample.uniform 4 2 255))))
           ++ [(INFO, Msg_loading "missing.png")]).
Proof.
  apply (proj1 (image_open_exit_status Sample.env
                  (Sample.config "missing.png" "output")
                  (Sample.holding "in.png" (Sample.Picture (Sample.uniform 4 2 255)))
                  sample_lawful) FileNotFoundError).
  reflexivity.
Defined.

(** C7, as stated, fails: when the input path is a file that is no image,
    the run ends with an uncaught error of the library and status 1, and
    nothing about the failure is logged. *)
Lemma undecodable_image_is_not_logged :
  let final :=
    run Sample.env (Sample.config "in.png" "output")
      (Sample.holding "in.png" (Sample.Text "not a picture")) in
  fst final = Raises OSError
  /\ exit_status (fst final) = 1
  /\ existsb is_error (logged (snd final)) = false.
Proof. vm_compute. repeat split. Qed.

(** ** The writer *)


(** ** Failures that are logged and survived *)

(** C9 (as amended).  Each of the five functions catches its exception,
    logs it and returns None instead of raising (the writer for an IOError),
    and the script goes on.  After a failure of the resize, of the greyscale
    conversion or of the pixel mapping the next stages do run, on None, but
    the layout loop of [convert] then raises an uncaught TypeError and the
    process ends with exit status 1, not 0.  A failure to create the output
    directory or to write the file leaves the exit status at 0 when the
    conversion itself succeeds. *)
Theorem stage_failures (E : Env) (cfg : Config) (st : FS E) (im : Image) :
  Image_open E (image_path cfg) (state_at_open E cfg st) = Ok im ->
  let self := entered cfg im in
  let final := run E cfg st in
  let target := os_path_join (output_path cfg) (output_file_name cfg) in
  (* caught, logged, None returned *)
  (forall w, exists r w',
      resize_image E self w = (Returns r, w')
      /\ (r = None -> exists e, In (ERROR, Msg_resize_failed e) (logged w')))
  /\ (forall x w, exists r w',
        convert_to_greyscale E x w = (Returns r, w')
        /\ (r = None -> exists e, In (ERROR, Msg_greyscale_failed e) (logged w')))
  /\ (forall x w, exists r w',
        convert_pixel_to_ascii E x w = (Returns r, w')
        /\ (r = None -> exists e, In (ERROR, Msg_ascii_failed e) (logged w')))
  /\ (forall w e st',
        os_path_exists E (output_folder cfg) (fs w) = false ->
        Path_mkdir E (output_folder cfg) (fs w) = (Err e, st') ->
        exists w',
          create_output_directory E cfg w = (Returns tt, w')
          /\ In (ERROR, Msg_folder_failed e) (logged w'))
  /\ (forall text name w e st',
        open_w_write E (os_path_join (output_path cfg) name) text (fs w) = (Err e, st') ->
        is_OSError e = true ->
        exists w',
          write_ascii_to_file E cfg text (Some name) w = (Returns tt, w')
          /\ In (ERROR, Msg_write_failed e) (logged w'))
  (* a failed image stage: the later stages run, then the run dies *)
  /\ (forall w,
        fst (resize_image E self w) = Returns None ->
        fst final = Raises TypeError /\ exit_status (fst final) = 1
        /\ In (ERROR, Msg_greyscale_failed AttributeError) (logged (snd final))
        /\ In (ERROR, Msg_ascii_failed AttributeError) (logged (snd final)))
  /\ (forall w resized e,
        fst (resize_image E self w) = Returns (Some resized) ->
        Image_convert E resized "L"%string = Err e ->
        fst final = Raises TypeError /\ exit_status (fst final) = 1
        /\ In (ERROR, Msg_greyscale_failed e) (logged (snd final))
        /\ In (ERROR, Msg_ascii_failed AttributeError) (logged (snd final)))
  /\ (forall w resized grey e,
        fst (resize_image E self w) = Returns (Some resized) ->
        Image_convert E resized "L"%string = Ok grey ->
        for_pixels (getdata grey) EmptyString = Err e ->
        fst final = Raises TypeError /\ exit_status (fst final) = 1
        /\ In (ERROR, Msg_ascii_failed e) (logged (snd final)))
  (* directory and write failures: status 0 *)
  /\ (forall w text,
        fst (convert E cfg self w) = Returns text ->
        (forall e st',
           open_w_write E target text (state_at_open E cfg st) = (Err e, st') ->
           is_OSError e = true ->
           exit_status (fst final) = 0
           /\ In (ERROR, Msg_write_failed e) (logged (snd final)))
        /\ (forall e st' st'',
              os_path_exists E (output_folder cfg) st = false ->
              Path_mkdir E (output_folder cfg) st = (Err e, st') ->
              open_w_write E target text (state_at_open E cfg st) = (Ok tt, st'') ->
              exit_status (fst final) = 0
              /\ In (ERROR, Msg_folder_failed e) (logged (snd final)))).
Proof.
  intros Hopen self final target.
  pose proof (run_cases E cfg st) as Hrun. cbv zeta in Hrun.
  fold (state_at_open E cfg st) in Hrun. rewrite Hopen in Hrun.
  destruct Hrun as [extra Hrun]. fold self in Hrun.
  destruct (convert_outcome E cfg self) as (o & ex & Hc & Hnone & Hsome).
  assert (Hblock : forall e, o = Raises e ->
            fst final = Raises e
            /\ forall m, In m ex -> In m (logged (snd final))).
  { intros e ->. subst final. rewrite Hrun. unfold block, bind. rewrite Hc.
    cbn [fst snd extend logged]. split; [reflexivity|].
    intros m Hm. find_record. }
  assert (Hfail : o = Raises TypeError ->
            fst final = Raises TypeError /\ exit_status (fst final) = 1).
  { intros Ho. destruct (Hblock TypeError Ho) as [Hf _].
    split; [assumption | now rewrite Hf]. }
  assert (Hdone : forall w text,
            fst (convert E cfg self w) = Returns text ->
            final
            = (fst (write_ascii_to_file E cfg text (Some (output_file_name cfg))
                      (extend (extend (world_at_open E cfg st)
                                 [(INFO, Msg_loading (image_path cfg))]) ex)),
               extend
                 (snd (write_ascii_to_file E cfg text (Some (output_file_name cfg))
                         (extend (extend (world_at_open E cfg st)
                                    [(INFO, Msg_loading (image_path cfg))]) ex)))
                 extra)).
  { intros w text Hconv. rewrite Hc in Hconv. cbn in Hconv. subst o.
    subst final. rewrite Hrun. unfold block, bind. rewrite Hc. reflexivity. }
  split.
  { intros w. destruct (resize_image_stage E self) as (r & ex1 & Hr & Hn & _).
    exists r, (extend w ex1). split; [apply Hr|].
    intros Hnil. destruct (Hn Hnil) as [e He]. exists e.
    cbn [extend logged]. find_record. }
  split.
  { intros x w. rewrite convert_to_greyscale_eq.
    destruct x as [i|]; [destruct (Image_convert E i "L"%string) as [g|e]|];
      eexists; eexists; (split; [reflexivity|]); intros Hnil;
      try discriminate; eexists; cbn [extend logged]; find_record. }
  split.
  { intros x w. rewrite convert_pixel_to_ascii_eq.
    destruct x as [i|]; [destruct (for_pixels (getdata i) EmptyString) as [s|e]|];
      eexists; eexists; (split; [reflexivity|]); intros Hnil;
      try discriminate; eexists; cbn [extend logged]; find_record. }
  split.
  { intros w e st' Hex Hmk. rewrite create_output_directory_eq, Hex.
    cbv zeta. rewrite Hmk. eexists. split; [reflexivity|].
    cbn [extend logged]. find_record. }
  split.
  { intros text name w e st' Hwr Hos. rewrite write_ascii_to_file_eq.
    cbv zeta. rewrite Hwr, Hos. eexists. split; [reflexivity|].
    cbn [extend logged]. find_record. }
  split.
  { intros w H0. destruct (Hnone w H0) as (Ho & H1 & H2).
    destruct (Hfail Ho) as [Hf Hs]. destruct (Hblock TypeError Ho) as [_ Hin].
    auto. }
  split.
  { intros w resized e H0 HC. specialize (Hsome w resized H0).
    rewrite HC in Hsome. destruct Hsome as (Ho & H1 & H2).
    destruct (Hfail Ho) as [Hf Hs]. destruct (Hblock TypeError Ho) as [_ Hin].
    auto. }
  split.
  { intros w resized grey e H0 HC HP. specialize (Hsome w resized H0).
    rewrite HC, HP in Hsome. destruct Hsome as (Ho & H1).
    destruct (Hfail Ho) as [Hf Hs]. destruct (Hblock TypeError Ho) as [_ Hin].
    auto. }
  intros w text Hconv. rewrite (Hdone w text Hconv).
  rewrite write_ascii_to_file_eq. cbv zeta. cbn [extend fs].
  fold (state_at_open E cfg st). fold target.
  split.
  - intros e st' Hwr Hos. rewrite Hwr, Hos.
    cbn [fst snd exit_status extend logged]. split; [reflexivity|]. find_record.
  - intros e st' st'' Hex Hmk Hwr. rewrite Hwr.
    cbn [fst snd exit_status extend logged]. split; [reflexivity|].
    unfold world_at_open. rewrite create_output_directory_eq. cbn [fs].
    rewrite Hex. cbv zeta. rewrite Hmk. cbn [snd extend logged]. find_record.
Qed.

(** An instance: the resize of a 1000x1 picture fails, its target height
    being 0. *)
Lemma stage_failures_witness :
  let cfg := Sample.config "in.png" "output" in
  let final :=
    run Sample.env cfg
      (Sample.holding "in.png" (Sample.Picture (Sample.uniform 1000 1 255))) in
  fst final = Raises TypeError /\ exit_status (fst final) = 1
  /\ In (ERROR, Msg_greyscale_failed AttributeError) (logged (snd final))
  /\ In (ERROR, Msg_ascii_failed AttributeError) (logged (snd final)).
Proof.
  pose proof (stage_failures Sample.env (Sample.config "in.png" "output")
                (Sample.holding "in.png" (Sample.Picture (Sample.uniform 1000 1 255)))
                (Sample.uniform 1000 1 255) eq_refl) as H.
  cbv zeta in H. destruct H as (_ & _ & _ & _ & _ & H & _).
  apply (H (Sample.fresh Sample.empty)). vm_compute. reflexivity.
Defined.

(** C9, as stated, fails: a 1000x1 image at target width 120 gets the
    height 0, the library refuses to resize to it, [resize_image] logs the
    error and returns None, and the run ends on an uncaught TypeError with
    exit status 1, not 0. *)
Lemma resize_failure_ends_with_status_1 :
  let final :=
    run Sample.env (Sample.config "in.png" "output")
      (Sample.holding "in.png" (Sample.Picture (Sample.uniform 1000 1 255))) in
  In (ERROR, Msg_resize_failed ValueError) (logged (snd final))
  /\ fst final = Raises TypeError
  /\ exit_status (fst final) = 1
  /\ (exit_status (fst final) =? 0) = false.
Proof. vm_compute. split; [|repeat split]. do 6 right. now left. Qed.

(** * Further properties of the script *)

(** ** The layout of the text *)

Lemma reflow_exact (s : string) (w : Z) :
  1 <= w ->
  reflow s w
  = Ok (concat_all
          (map (fun k => String.append (substring (k * Z.to_nat w) (Z.to_nat w) s) newline)
             (seq 0 (Z.to_nat (if 0 <? len s then (len s - 0 - 1) / w + 1 else 0))))).
Proof.
  intros Hw. unfold reflow, range.
  destruct (w =? 0) eqn:E0; [apply Z.eqb_eq in E0; lia|].
  destruct (0 <? w) eqn:E1; [|apply Z.ltb_ge in E1; lia].
  rewrite fold_left_rows. simpl String.append.
  rewrite map_map. f_equal. f_equal.
  apply map_ext. intros k. cbn beta.
  now rewrite slice_chunk.
Qed.

Lemma rows_of_rectangle (w h : Z) :
  1 <= w -> 0 <= h ->
  (if 0 <? w * h then (w * h - 0 - 1) / w + 1 else 0) = h.
Proof.
  intros Hw Hh. destruct (0 <? w * h) eqn:E.
  - apply Z.ltb_lt in E. assert (1 <= h) by nia.
    rewrite Z.sub_0_r.
    replace (w * h - 1) with ((h - 1) * w + (w - 1)) by ring.
    rewrite Z.div_add_l by lia. rewrite Z.div_small by lia. lia.
  - apply Z.ltb_ge in E. nia.
Qed.

Lemma length_substring (n m : nat) (s : string) :
  (n + m <= String.length s)%nat -> String.length (substring n m s) = m.
Proof.
  revert n m; induction s as [|c s IH]; intros n m H.
  - cbn in H. assert (n = 0%nat) by lia. assert (m = 0%nat) by lia. now subst.
  - destruct n as [|n].
    + destruct m as [|m]; [reflexivity|].
      cbn [substring String.length]. f_equal. apply IH. cbn in H. lia.
    + cbn [substring]. apply IH. cbn in H. lia.
Qed.

Lemma length_concat_all (rows : list string) (m : nat) :
  Forall (fun r => String.length r = m) rows ->
  String.length (concat_all rows) = (List.length rows * m)%nat.
Proof.
  induction 1 as [|r rows Hr _ IH]; [reflexivity|].
  unfold concat_all in *. cbn [fold_right List.length].
  rewrite length_append, IH, Hr. lia.
Qed.

Lemma get_concat_all (rows : list string) (m : nat) :
  Forall (fun r => String.length r = m) rows ->
  forall i j, (j < m)%nat ->
    String.get (i * m + j) (concat_all rows) = String.get j (nth i rows EmptyString).
Proof.
  induction 1 as [|r rows Hr _ IH]; intros i j Hj.
  - destruct i; cbn; now destruct j.
  - unfold concat_all in *. cbn [fold_right]. destruct i as [|i].
    + cbn [nth Nat.mul Nat.add]. symmetry. apply append_correct1. lia.
    + cbn [nth]. rewrite <- (IH i j Hj).
      replace (S i * m + j)%nat with ((i * m + j) + String.length r)%nat by lia.
      symmetry. apply append_correct2.
Qed.

(** The text of a string of w*h characters, by line and column. *)
Lemma reflow_grid (s : string) (w h : nat) :
  (1 <= w)%nat -> String.length s = (w * h)%nat ->
  exists text,
    reflow s (Z.of_nat w) = Ok text
    /\ String.length text = (S w * h)%nat
    /\ forall y, (y < h)%nat ->
         String.get (y * S w + w) text = Some LF
         /\ forall x, (x < w)%nat ->
              String.get (y * S w + x) text = String.get (y * w + x) s.
Proof.
  intros Hw Hlen.
  rewrite (reflow_exact s (Z.of_nat w)) by lia.
  unfold len. rewrite Hlen.
  replace (Z.of_nat (w * h)) with (Z.of_nat w * Z.of_nat h) by lia.
  rewrite rows_of_rectangle by lia. rewrite !Nat2Z.id.
  eexists. split; [reflexivity|].
  set (row := fun k => String.append (substring (k * w) w s) newline).
  assert (Hrows : Forall (fun r => String.length r = S w) (map row (seq 0 h))).
  { apply Forall_forall. intros r Hr. apply in_map_iff in Hr as (k & <- & Hk).
    apply in_seq in Hk. unfold row. rewrite length_append, length_substring.
    - cbn. lia.
    - nia. }
  split.
  - rewrite (length_concat_all _ _ Hrows), length_map, length_seq. lia.
  - intros y Hy.
    assert (Hnth : nth y (map row (seq 0 h)) EmptyString = row y).
    { rewrite (nth_indep _ EmptyString (row 0%nat))
        by (rewrite length_map, length_seq; lia).
      rewrite map_nth. rewrite seq_nth by lia. reflexivity. }
    assert (Hsub : String.length (substring (y * w) w s) = w).
    { apply length_substring. nia. }
    split.
    + rewrite (get_concat_all _ _ Hrows) by lia. rewrite Hnth. unfold row.
      pose proof (append_correct2 (substring (y * w) w s) newline 0) as H2.
      rewrite Hsub in H2. cbn [Nat.add] in H2. rewrite <- H2. reflexivity.
    + intros x Hx.
      rewrite (get_concat_all _ _ Hrows) by lia. rewrite Hnth. unfold row.
      rewrite <- append_correct1 by lia.
      rewrite substring_correct1 by lia.
      f_equal. lia.
Qed.

(** X1: the layout loop of [convert] turns a string of w*h characters into
    a rectangle: h lines, each holding the next w characters of the string
    and closed by a newline, so that the text has (w+1)*h characters, the
    character of column x and line y is the one at index y*w+x of the
    string, and every line ends at column w with the newline. *)
Theorem reflow_rectangle (s : string) (w h : Z) :
  1 <= w -> 0 <= h -> len s = w * h ->
  exists text,
    reflow s w = Ok text
    /\ len text = (w + 1) * h
    /\ forall y, 0 <= y < h ->
         String.get (Z.to_nat (y * (w + 1) + w)) text = Some LF
         /\ forall x, 0 <= x < w ->
              String.get (Z.to_nat (y * (w + 1) + x)) text
              = String.get (Z.to_nat (y * w + x)) s.
Proof.
  intros Hw Hh Hlen.
  destruct (reflow_grid s (Z.to_nat w) (Z.to_nat h)) as (text & Hr & Hl & Hg).
  - lia.
  - unfold len in Hlen. nia.
  - rewrite Z2Nat.id in Hr by lia.
    exists text. split; [assumption|]. split; [unfold len; nia|].
    intros y Hy. destruct (Hg (Z.to_nat y)) as [Hnl Hch]; [lia|]. split.
    + replace (Z.to_nat (y * (w + 1) + w))
        with (Z.to_nat y * S (Z.to_nat w) + Z.to_nat w)%nat by nia.
      assumption.
    + intros x Hx.
      replace (Z.to_nat (y * (w + 1) + x))
        with (Z.to_nat y * S (Z.to_nat w) + Z.to_nat x)%nat by nia.
      replace (Z.to_nat (y * w + x))
        with (Z.to_nat y * Z.to_nat w + Z.to_nat x)%nat by nia.
      apply Hch. lia.
Qed.

(** An instance: six characters in rows of three. *)
Lemma reflow_rectangle_witness :
  exists text,
    reflow "@#$%?*"%string 3 = Ok text
    /\ len text = (3 + 1) * 2
    /\ forall y, 0 <= y < 2 ->
         String.get (Z.to_nat (y * (3 + 1) + 3)) text = Some LF
         /\ forall x, 0 <= x < 3 ->
              String.get (Z.to_nat (y * (3 + 1) + x)) text
              = String.get (Z.to_nat (y * 3 + x)) "@#$%?*"%string.
Proof. apply (reflow_rectangle "@#$%?*" 3 2); [lia | lia | reflexivity]. Defined.

(** A width that is not positive never gives a line. *)
Lemma reflow_nonpositive_width (s : string) (w : Z) :
  w <= 0 ->
  reflow s w = if w =? 0 then Err ValueError else Ok EmptyString.
Proof.
  intros Hw. unfold reflow, range.
  destruct (w =? 0) eqn:E0; [reflexivity|].
  apply Z.eqb_neq in E0.
  destruct (0 <? w) eqn:E1; [apply Z.ltb_lt in E1; lia|].
  pose proof (len_nonneg s).
  destruct (len s <? 0) eqn:E2; [apply Z.ltb_lt in E2; lia|].
  reflexivity.
Qed.

(** X2: a converter whose target width is not positive never produces a
    picture.  Whatever the image and the libraries do, [convert] ends on
    the TypeError of a failed stage, or, when every stage succeeds, on the
    ValueError of a [range] with step 0 (target width 0) or with the empty
    text (negative target width). *)
Theorem convert_nonpositive_target_width (E : Env) (cfg : Config)
  (self : AsciiArtConverter) (w : World E) :
  lawful E ->
  target_width self <= 0 ->
  fst (convert E cfg self w) = Raises TypeError
  \/ fst (convert E cfg self w)
     = if target_width self =? 0 then Raises ValueError else Returns EmptyString.
Proof.
  intros L Htw.
  destruct (convert_outcome E cfg self) as (o & ex & Hc & Hnone & Hsome).
  rewrite Hc. cbn [fst].
  destruct (resize_image_stage E self) as (r & ex1 & Hr & _ & Hres).
  assert (H0 : fst (resize_image E self w) = Returns r) by now rewrite Hr.
  destruct r as [resized|]; [|left; now destruct (Hnone w H0)].
  specialize (Hsome w resized H0).
  destruct (Hres resized eq_refl) as (im & h & _ & Hsz).
  apply (resize_size E L) in Hsz.
  destruct (Image_convert E resized "L"%string) as [grey|e] eqn:HC;
    [|left; now destruct Hsome].
  pose proof (convert_size E L _ _ HC) as Hsz'. rewrite Hsz in Hsz'.
  destruct (convert_greyscale E L _ _ HC) as [_ Hok].
  destruct (for_pixels_ok (getdata grey) EmptyString Hok) as (cs & Hpix & _).
  rewrite Hpix in Hsome. unfold width in Hsome. rewrite Hsz' in Hsome.
  cbn [fst] in Hsome. rewrite reflow_nonpositive_width in Hsome by assumption.
  right. subst o. now destruct (target_width self =? 0).
Qed.

(** An instance: target width 0 on a white 4x2 picture. *)
Lemma convert_nonpositive_target_width_witness :
  let cfg := Sample.config "in.png" "output" in
  let self := {| _is_context_manager := false;
                 path_to_image := "in.png";
                 image := Some (Sample.uniform 4 2 255);
                 target_width := 0 |} in
  fst (convert Sample.env cfg self (Sample.fresh Sample.empty)) = Raises TypeError
  \/ fst (convert Sample.env cfg self (Sample.fresh Sample.empty))
     = if target_width self =? 0 then Raises ValueError else Returns EmptyString.
Proof.
  apply (convert_nonpositive_target_width Sample.env (Sample.config "in.png" "output")
           {| _is_context_manager := false;
              path_to_image := "in.png";
              image := Some (Sample.uniform 4 2 255);
              target_width := 0 |}
           (Sample.fresh Sample.empty)).
  - exact sample_lawful.
  - cbn. lia.
Defined.

(** ** The ascii mapper on any image *)

Lemma ramp_entries :
  Forall (fun e => exists c : ascii, e = String c EmptyString) ASCII_CHARS.
Proof. unfold ASCII_CHARS. repeat constructor; eexists; reflexivity. Qed.

Lemma getitem_cases {A : Type} (l : list A) (i : Z) :
  let n := Z.of_nat (List.length l) in
  (- n <= i < n /\ exists x, getitem l i = Ok x /\ In x l)
  \/ ((i < - n \/ n <= i) /\ getitem l i = Err IndexError).
Proof.
  intros n. unfold getitem. fold n.
  destruct (i <? 0) eqn:E; [apply Z.ltb_lt in E | apply Z.ltb_ge in E].
  - destruct (0 <=? i + n) eqn:E1; [apply Z.leb_le in E1 | apply Z.leb_gt in E1].
    + destruct (i + n <? n) eqn:E2; [|apply Z.ltb_ge in E2; lia].
      cbn [andb]. left. split; [lia|].
      destruct (nth_error l (Z.to_nat (i + n))) as [x|] eqn:Hn.
      * exists x. split; [reflexivity|]. eapply nth_error_In; eassumption.
      * apply nth_error_None in Hn. lia.
    + right. split; [lia | reflexivity].
  - destruct (0 <=? i) eqn:E1; [|apply Z.leb_gt in E1; lia].
    destruct (i <? n) eqn:E2; [apply Z.ltb_lt in E2 | apply Z.ltb_ge in E2].
    + cbn [andb]. left. split; [lia|].
      destruct (nth_error l (Z.to_nat i)) as [x|] eqn:Hn.
      * exists x. split; [reflexivity|]. eapply nth_error_In; eassumption.
      * apply nth_error_None in Hn. lia.
    + right. split; [lia | reflexivity].
Qed.

Lemma bucket_range (v : Z) : -275 <= v < 275 <-> -11 <= v / 25 < 11.
Proof.
  pose proof (Z.div_mod v 25 ltac:(lia)).
  pose proof (Z.mod_pos_bound v 25 ltac:(lia)). lia.
Qed.

Lemma ascii_step_cases (acc : string) (p : pixel) :
  (indexable p = true
   /\ exists c : ascii,
        In (String c EmptyString) ASCII_CHARS
        /\ ascii_step acc p = Ok (String.append acc (String c EmptyString)))
  \/ (indexable p = false
      /\ (ascii_step acc p = Err IndexError \/ ascii_step acc p = Err TypeError)).
Proof.
  destruct p as [v|x|vs]; [|right; split; [reflexivity | now right]..].
  cbn [ascii_step indexable].
  pose proof (bucket_range v) as Hb.
  destruct (getitem_cases ASCII_CHARS (v / 25)) as [[Hr (x & Hx & Hin)] | [Hr Hx]];
    cbn in Hr; rewrite Hx.
  - left. split.
    + apply andb_true_intro. split; [apply Z.leb_le | apply Z.ltb_lt]; lia.
    + pose proof ramp_entries as Hall. rewrite Forall_forall in Hall.
      destruct (Hall x Hin) as [c ->]. now exists c.
  - right. split; [|now left].
    destruct (-275 <=? v) eqn:E1; [|reflexivity]. apply Z.leb_le in E1.
    destruct (v <? 275) eqn:E2; [|reflexivity]. apply Z.ltb_lt in E2. lia.
Qed.

Lemma for_pixels_cases (pixels : list pixel) (acc : string) :
  (forallb indexable pixels = true
   /\ exists cs : list ascii,
        for_pixels pixels acc = Ok (String.append acc (string_of_list_ascii cs))
        /\ List.length cs = List.length pixels
        /\ Forall (fun c => In (String c EmptyString) ASCII_CHARS) cs)
  \/ (forallb indexable pixels = false
      /\ (for_pixels pixels acc = Err IndexError
          \/ for_pixels pixels acc = Err TypeError)).
Proof.
  revert acc; induction pixels as [|p ps IH]; intros acc.
  - left. split; [reflexivity|]. exists []. cbn. rewrite append_nil_r. auto.
  - cbn [for_pixels forallb].
    destruct (ascii_step_cases acc p) as [[Hp (c & Hc & ->)] | [Hp [-> | ->]]];
      rewrite Hp; cbn [andb]; [|right; auto..].
    destruct (IH (String.append acc (String c EmptyString)))
      as [[Hps (cs & -> & Hlen & Hall)] | [Hps Herr]].
    + left. split; [assumption|]. exists (c :: cs).
      rewrite append_assoc. cbn. auto.
    + right. auto.
Qed.

(** X3: an intensity below zero does not stop the mapper as long as its
    bucket [v // 25] is a valid negative index of the ramp: for every
    intensity v in [-275, -1] the step of the loop appends a character, the
    ramp entry that the index [v // 25] counts from the end (position
    [11 + v // 25]), which is the character of the intensity 275 above; and
    the mapper returns that character for an image of this one pixel. *)
Theorem negative_intensity_wraps (E : Env) (w : World E) (ascii_str : string) (v : Z) :
  -275 <= v < 0 ->
  exists c : ascii,
    -11 <= v / 25 < 0
    /\ nth_error ASCII_CHARS (Z.to_nat (11 + v / 25)) = Some (String c EmptyString)
    /\ ascii_step ascii_str (Lum v) = Ok (String.append ascii_str (String c EmptyString))
    /\ ascii_step ascii_str (Lum (v + 275))
       = Ok (String.append ascii_str (String c EmptyString))
    /\ fst (convert_pixel_to_ascii E (Some {| size := (1, 1); getdata := [Lum v] |}) w)
       = Returns (Some (String c EmptyString)).
Proof.
  intros Hv.
  pose proof (proj1 (bucket_range v) ltac:(lia)) as Hb.
  assert (Hneg : v / 25 < 0) by (apply Z.div_lt_upper_bound; lia).
  destruct (getitem_ramp (11 + v / 25) ltac:(lia)) as (c & Hget & Hnth).
  assert (Hitem : getitem ASCII_CHARS (v / 25) = Ok (String c EmptyString)).
  { revert Hget. unfold getitem. cbn [ASCII_CHARS List.length Z.of_nat].
    destruct (v / 25 <? 0) eqn:E1; [|apply Z.ltb_ge in E1; lia].
    destruct (11 + v / 25 <? 0) eqn:E2; [apply Z.ltb_lt in E2; lia|].
    now rewrite (Z.add_comm (v / 25)). }
  assert (Hstep : forall acc,
            ascii_step acc (Lum v) = Ok (String.append acc (String c EmptyString))).
  { intros acc. cbn [ascii_step]. now rewrite Hitem. }
  exists c. split; [lia|]. split; [assumption|]. split; [apply Hstep|]. split.
  - cbn [ascii_step]. replace (v + 275) with (v + 11 * 25) by ring.
    rewrite Z.div_add by lia. rewrite (Z.add_comm (v / 25)). now rewrite Hget.
  - rewrite convert_pixel_to_ascii_eq. cbn [getdata for_pixels].
    rewrite Hstep. reflexivity.
Qed.

(** An instance: the intensity -1 is mapped like 274, to the last character. *)
Lemma negative_intensity_wraps_witness :
  exists c : ascii,
    -11 <= -1 / 25 < 0
    /\ nth_error ASCII_CHARS (Z.to_nat (11 + -1 / 25)) = Some (String c EmptyString)
    /\ ascii_step EmptyString (Lum (-1)) = Ok (String.append EmptyString (String c EmptyString))
    /\ ascii_step EmptyString (Lum (-1 + 275))
       = Ok (String.append EmptyString (String c EmptyString))
    /\ fst (convert_pixel_to_ascii Sample.env
              (Some {| size := (1, 1); getdata := [Lum (-1)] |}) (Sample.fresh Sample.empty))
       = Returns (Some (String c EmptyString)).
Proof.
  apply (negative_intensity_wraps Sample.env (Sample.fresh Sample.empty) EmptyString (-1)).
  lia.
Defined.

(** X4: the mapper returns a string exactly when every pixel of the image
    is an int v with -275 <= v < 275; for any other image the exception of
    the loop (IndexError for an int out of that range, TypeError for a
    pixel that is a float or a tuple of bands) is caught and logged, and
    the mapper returns None. *)
Theorem convert_pixel_to_ascii_returns_iff (E : Env) (im : Image) (w : World E) :
  let r := convert_pixel_to_ascii E (Some im) w in
  ((exists s, fst r = Returns (Some s)) <-> forallb indexable (getdata im) = true)
  /\ (fst r = Returns None <-> forallb indexable (getdata im) = false)
  /\ (fst r = Returns None <->
      In (ERROR, Msg_ascii_failed IndexError) (skipn (List.length (logged w)) (logged (snd r)))
      \/ In (ERROR, Msg_ascii_failed TypeError) (skipn (List.length (logged w)) (logged (snd r)))).
Proof.
  cbv zeta. rewrite convert_pixel_to_ascii_eq.
  assert (Hskip : forall extra : list log_record,
            skipn (List.length (logged w)) (logged w ++ extra) = extra).
  { intros extra. rewrite skipn_app, skipn_all, Nat.sub_diag. reflexivity. }
  destruct (for_pixels_cases (getdata im) EmptyString)
    as [[Hall (cs & -> & _)] | [Hall [-> | ->]]]; rewrite Hall;
    cbn [fst snd extend logged]; rewrite Hskip.
  - split; [split; [reflexivity | intros _; eexists; reflexivity]|].
    split; [split; discriminate|].
    split; [discriminate|]. cbn [In]. intros [[H|[H|[]]] | [H|[H|[]]]]; discriminate.
  - split; [split; [intros [s Hs]; discriminate | discriminate]|].
    split; [split; reflexivity|].
    split; [intros _|reflexivity]. left. now left.
  - split; [split; [intros [s Hs]; discriminate | discriminate]|].
    split; [split; reflexivity|].
    split; [intros _|reflexivity]. right. now left.
Qed.

(** X5: whatever the image, a string the mapper returns has exactly one
    character for each pixel, every character is one of the ramp, and the
    file system is as before the call. *)
Theorem mapper_one_ramp_character_per_pixel (E : Env) (x : option Image)
  (w w' : World E) (s : string) :
  convert_pixel_to_ascii E x w = (Returns (Some s), w') ->
  exists im,
    x = Some im
    /\ len s = Z.of_nat (List.length (getdata im))
    /\ (forall i c, String.get i s = Some c -> In (String c EmptyString) ASCII_CHARS)
    /\ fs w' = fs w.
Proof.
  rewrite convert_pixel_to_ascii_eq. destruct x as [im|]; [|discriminate].
  destruct (for_pixels_cases (getdata im) EmptyString)
    as [[Hall (cs & -> & Hlen & Hcs)] | [Hall [-> | ->]]]; [|discriminate..].
  intros H. injection H as <- <-. exists im. split; [reflexivity|].
  cbn [String.append]. split.
  - unfold len. now rewrite length_string_of_list_ascii, Hlen.
  - split; [|reflexivity]. intros i c Hi.
    rewrite get_string_of_list_ascii in Hi. apply nth_error_In in Hi.
    rewrite Forall_forall in Hcs. now apply Hcs.
Qed.

(** An instance: a 2x2 image with a negative and an oversized intensity. *)
Lemma mapper_one_ramp_character_per_pixel_witness :
  let im := {| size := (2, 2); getdata := [Lum 0; Lum (-1); Lum 128; Lum 274] |} in
  exists im',
    Some im = Some im'
    /\ len "@.*."%string = Z.of_nat (List.length (getdata im'))
    /\ (forall i c, String.get i "@.*."%string = Some c ->
        In (String c EmptyString) ASCII_CHARS)
    /\ fs (extend (Sample.fresh Sample.empty)
             [(DEBUG, Msg_pixels (getdata im)); (DEBUG, Msg_ascii "@.*."%string)])
       = fs (Sample.fresh Sample.empty).
Proof.
  apply (mapper_one_ramp_character_per_pixel Sample.env
           (Some {| size := (2, 2); getdata := [Lum 0; Lum (-1); Lum 128; Lum 274] |})
           (Sample.fresh Sample.empty)).
  reflexivity.
Defined.

(** X6: the eleven characters of the ramp are pairwise distinct, so two
    intensities of [0, 255] are mapped to the same character exactly when
    they fall into the same bucket of 25. *)
Theorem same_character_iff_same_bucket (p q : Z) :
  0 <= p <= 255 -> 0 <= q <= 255 ->
  (ascii_step EmptyString (Lum p) = ascii_step EmptyString (Lum q) <-> p / 25 = q / 25).
Proof.
  intros Hp Hq. cbn [ascii_step].
  pose proof (ramp_index_bounds p Hp) as Hi. pose proof (ramp_index_bounds q Hq) as Hj.
  unfold ramp_index in *.
  split; [|now intros ->].
  assert (Ei : forall i, 0 <= i <= 10 ->
            i = 0 \/ i = 1 \/ i = 2 \/ i = 3 \/ i = 4 \/ i = 5 \/ i = 6 \/ i = 7
            \/ i = 8 \/ i = 9 \/ i = 10) by (intros; lia).
  destruct (Ei _ Hi) as [-> | [-> | [-> | [-> | [-> | [-> | [-> | [-> | [-> | [-> | ->]]]]]]]]]];
    destruct (Ei _ Hj) as [-> | [-> | [-> | [-> | [-> | [-> | [-> | [-> | [-> | [-> | ->]]]]]]]]]];
    intros H; first [reflexivity | vm_compute in H; discriminate].
Qed.

(** An instance: 100 and 124 share the bucket 4. *)
Lemma same_character_iff_same_bucket_witness :
  ascii_step EmptyString (Lum 100) = ascii_step EmptyString (Lum 124) <-> 100 / 25 = 124 / 25.
Proof. apply same_character_iff_same_bucket; lia. Defined.

(** ** Runs in which the image opens *)

Lemma __exit___loaded (E : Env) (self : AsciiArtConverter) (im : Image) (w : World E) :
  image self = Some im ->
  __exit__ E self w
  = (Returns tt,
     extend w ((INFO, Msg_closing)
               :: match Image_close E im with
                  | Ok _ => []
                  | Err e => [(ERROR, Msg_close_failed e)]
                  end)).
Proof.
  intros Him. unfold __exit__. unfold_prog. rewrite Him. cbn.
  destruct (Image_close E im) as [[]|e]; cbn; unfold extend; cbn;
    rewrite <- ?app_assoc; reflexivity.
Qed.

Lemma run_opened (E : Env) (cfg : Config) (st : FS E) (im : Image) :
  Image_open E (image_path cfg) (state_at_open E cfg st) = Ok im ->
  let body := block E cfg (entered cfg im)
                (extend (world_at_open E cfg st) [(INFO, Msg_loading (image_path cfg))]) in
  run E cfg st
  = (fst body,
     extend (snd body)
       ((INFO, Msg_closing)
        :: match Image_close E im with
           | Ok _ => []
           | Err e => [(ERROR, Msg_close_failed e)]
           end)).
Proof.
  intros Hopen body. unfold state_at_open in Hopen.
  set (w1 := world_at_open E cfg st) in *.
  assert (Hrun : run E cfg st
                 = with_as E (main_converter E cfg)
                     (fun aac =>
                        ascii_string <- convert E cfg aac;;
                        write_ascii_to_file E cfg ascii_string
                          (Some (output_file_name cfg))) w1).
  { unfold run, main. unfold bind at 1. cbn.
    unfold bind at 1. rewrite create_output_directory_returns. reflexivity. }
  rewrite Hrun; unfold with_as, main_converter, __init__;
    unfold bind at 1; rewrite load_image_eq;
    cbn [path_to_image target_width _is_context_manager image];
    rewrite Hopen.
  change ((let '(r, w0) := block E cfg (entered cfg im)
                             (extend w1 [(INFO, Msg_loading (image_path cfg))]) in
           match __exit__ E (entered cfg im) w0 with
           | (Returns _, w2) => (r, w2)
           | (Raises e, w2) => (Raises e, w2)
           | (Exits n, w2) => (Exits n, w2)
           end)
          = (fst body,
             extend (snd body)
               ((INFO, Msg_closing)
                :: match Image_close E im with
                   | Ok _ => []
                   | Err e => [(ERROR, Msg_close_failed e)]
                   end))).
  subst body.
  destruct (block E cfg (entered cfg im)
              (extend w1 [(INFO, Msg_loading (image_path cfg))])) as [r w3].
  rewrite (__exit___loaded E (entered cfg im) im w3 eq_refl). reflexivity.
Qed.

Lemma convert_returns_or_raises (E : Env) (cfg : Config) (self : AsciiArtConverter)
  (w0 : World E) :
  exists o extra,
    (forall w, convert E cfg self w = (o, extend w extra))
    /\ ((exists text, o = Returns text) \/ (exists e, o = Raises e)).
Proof.
  destruct (convert_outcome E cfg self) as (o & ex & Hc & Hnone & Hsome).
  exists o, ex. split; [assumption|].
  destruct (resize_image_stage E self) as (r & ex1 & Hr & _).
  assert (H0 : fst (resize_image E self w0) = Returns r) by now rewrite Hr.
  destruct r as [resized|].
  - specialize (Hsome w0 resized H0).
    destruct (Image_convert E resized "L"%string) as [grey|e].
    + destruct (for_pixels (getdata grey) EmptyString) as [s|e].
      * destruct (reflow s (width grey)) as [text|e]; subst o; eauto.
      * destruct Hsome as [-> _]. eauto.
    + destruct Hsome as [-> _]. eauto.
  - destruct (Hnone w0 H0) as [-> _]. eauto.
Qed.

(** The run of the script, by what opening the image and the conversion
    give. *)
Lemma run_shape (E : Env) (cfg : Config) (st : FS E) :
  let w1 := world_at_open E cfg st in
  let target := os_path_join (output_path cfg) (output_file_name cfg) in
  match Image_open E (image_path cfg) (state_at_open E cfg st) with
  | Err e =>
      fs (snd (run E cfg st)) = state_at_open E cfg st
      /\ fst (run E cfg st) = if is_FileNotFoundError e then Exits 1 else Raises e
  | Ok im =>
      exists o extra,
        (forall w, convert E cfg (entered cfg im) w = (o, extend w extra))
        /\ match o with
           | Returns text =>
               fs (snd (run E cfg st))
               = snd (open_w_write E target text (state_at_open E cfg st))
               /\ fst (run E cfg st)
                  = match fst (open_w_write E target text (state_at_open E cfg st)) with
                    | Ok _ => Returns tt
                    | Err e => if is_OSError e then Returns tt else Raises e
                    end
           | Raises e =>
               fs (snd (run E cfg st)) = state_at_open E cfg st
               /\ fst (run E cfg st) = Raises e
           | Exits _ => False
           end
  end.
Proof.
  intros w1 target. unfold state_at_open. fold w1.
  destruct (Image_open E (image_path cfg) (fs w1)) as [im|e] eqn:Hopen.
  - rewrite (run_opened E cfg st im Hopen). cbv zeta. cbn [fst snd extend fs].
    fold w1.
    destruct (convert_returns_or_raises E cfg (entered cfg im) w1)
      as (o & ex & Hc & Ho).
    exists o, ex. split; [assumption|].
    unfold block, bind. rewrite Hc.
    destruct Ho as [[text ->] | [e ->]].
    + rewrite write_ascii_to_file_eq. cbv zeta. cbn [extend fs].
      fold target.
      destruct (open_w_write E target text (fs w1)) as [[[]|e] st'];
        cbn [fst snd]; [split; reflexivity|].
      destruct (is_OSError e); split; reflexivity.
    + split; reflexivity.
  - pose proof (run_cases E cfg st) as Hrun. cbv zeta in Hrun.
    fold w1 in Hrun. rewrite Hopen in Hrun. rewrite Hrun.
    destruct (is_FileNotFoundError e); split; reflexivity.
Qed.

(** X7: once the image is open, it is closed whatever the [with] block
    does: the run ends as the block ends (returning, or with the block's
    uncaught exception), on the file system the block leaves, and its log
    is the block's followed by the record of the closing and, when
    [close] itself raises, by the record of that failure, which is
    swallowed. *)
Theorem image_closed_after_block (E : Env) (cfg : Config) (st : FS E) (im : Image) :
  Image_open E (image_path cfg) (state_at_open E cfg st) = Ok im ->
  let body := block E cfg (entered cfg im)
                (extend (world_at_open E cfg st) [(INFO, Msg_loading (image_path cfg))]) in
  let final := run E cfg st in
  fst final = fst body
  /\ fs (snd final) = fs (snd body)
  /\ logged (snd final)
     = logged (snd body)
       ++ (INFO, Msg_closing)
          :: match Image_close E im with
             | Ok _ => []
             | Err e => [(ERROR, Msg_close_failed e)]
             end.
Proof.
  intros Hopen body final. subst final body.
  rewrite (run_opened E cfg st im Hopen). cbv zeta.
  cbn [fst snd extend fs logged]. repeat split.
Qed.

(** An instance: the conversion of a 1000x1 picture dies on a TypeError,
    and the picture is closed all the same. *)
Lemma image_closed_after_block_witness :
  let cfg := Sample.config "in.png" "output" in
  let st := Sample.holding "in.png" (Sample.Picture (Sample.uniform 1000 1 255)) in
  let body := block Sample.env cfg (entered cfg (Sample.uniform 1000 1 255))
                (extend (world_at_open Sample.env cfg st)
                   [(INFO, Msg_loading (image_path cfg))]) in
  let final := run Sample.env cfg st in
  fst final = fst body
  /\ fs (snd final) = fs (snd body)
  /\ logged (snd final)
     = logged (snd body)
       ++ (INFO, Msg_closing)
          :: match Image_close Sample.env (Sample.uniform 1000 1 255) with
             | Ok _ => []
             | Err e => [(ERROR, Msg_close_failed e)]
             end.
Proof.
  apply (image_closed_after_block Sample.env (Sample.config "in.png" "output")
           (Sample.holding "in.png" (Sample.Picture (Sample.uniform 1000 1 255)))
           (Sample.uniform 1000 1 255)).
  reflexivity.
Defined.

(** The exit status of the main block. *)
Lemma main_block_status (E : Env) (cfg : Config) (st : FS E) :
  let final := run E cfg st in
  let target := os_path_join (output_path cfg) (output_file_name cfg) in
  (exit_status (fst final) = 0 \/ exit_status (fst final) = 1)
  /\ (exit_status (fst final) = 0 <->
      exists im text,
        Image_open E (image_path cfg) (state_at_open E cfg st) = Ok im
        /\ fst (convert E cfg (entered cfg im) (world_at_open E cfg st)) = Returns text
        /\ match fst (open_w_write E target text (state_at_open E cfg st)) with
           | Ok _ => True
           | Err e => is_OSError e = true
           end).
Proof.
  intros final target. subst final.
  pose proof (run_shape E cfg st) as Hs. cbv zeta in Hs. fold target in Hs.
  destruct (Image_open E (image_path cfg) (state_at_open E cfg st)) as [im|e] eqn:Hopen.
  - destruct Hs as (o & ex & Hc & Ho).
    destruct o as [text|e|n]; [| |contradiction]; destruct Ho as [_ ->].
    + destruct (fst (open_w_write E target text (state_at_open E cfg st)))
        as [[]|e] eqn:Hw.
      * split; [now left|]. split; [intros _|reflexivity].
        exists im, text. rewrite Hc, Hw. auto.
      * destruct (is_OSError e) eqn:He; cbn [exit_status].
        -- split; [now left|]. split; [intros _|reflexivity].
           exists im, text. rewrite Hc, Hw. auto.
        -- split; [now right|]. split; [discriminate|].
           intros (im' & text' & Him & Hconv & Hwr).
           injection Him as <-. rewrite Hc in Hconv. injection Hconv as <-.
           rewrite Hw in Hwr. congruence.
    + cbn [exit_status]. split; [now right|]. split; [discriminate|].
      intros (im' & text' & Him & Hconv & _).
      injection Him as <-. rewrite Hc in Hconv. discriminate.
  - destruct Hs as [_ ->].
    assert (Hst : exit_status (if is_FileNotFoundError e
                               then @Exits unit 1 else Raises e) = 1)
      by now destruct (is_FileNotFoundError e).
    rewrite Hst. split; [now right|]. split; [discriminate|].
    intros (im' & text' & Him & _). discriminate.
Qed.

Lemma level_of_level_string (name : string) :
  level_number (String.append "Level " name) = None.
Proof. reflexivity. Qed.

Lemma script_eq (E : Env) (cfg : Config) (w : World E) :
  script E cfg w
  = match level_number (log_level cfg) with
    | Some _ => main E cfg w
    | None => (Raises ValueError, w)
    end.
Proof.
  unfold script, getLevelName, basicConfig, bind.
  destruct (level_number (log_level cfg)) as [n|]; [reflexivity|].
  now rewrite level_of_level_string.
Qed.

(** X8: the exit status of the script is 0, 1 or 2.  It is 2 exactly when
    the parser rejects the command line; and it is 0 exactly when the help
    was asked for, or the command line parses, the log level is a level
    name the logging module knows, the image opens, [convert] returns a
    text, and writing the text either succeeds or fails with an IOError
    (which is caught). *)
Theorem aag_exit_status (E : Env) (args : parse_outcome) (st : FS E) :
  let final := aag E args {| logged := []; fs := st |} in
  (exit_status (fst final) = 0 \/ exit_status (fst final) = 1
   \/ exit_status (fst final) = 2)
  /\ (exit_status (fst final) = 2 <-> args = Usage_error)
  /\ (exit_status (fst final) = 0 <->
      args = Help
      \/ exists cfg n im text,
           args = Parsed cfg
           /\ level_number (log_level cfg) = Some n
           /\ Image_open E (image_path cfg) (state_at_open E cfg st) = Ok im
           /\ fst (convert E cfg (entered cfg im) (world_at_open E cfg st)) = Returns text
           /\ match fst (open_w_write E
                           (os_path_join (output_path cfg) (output_file_name cfg))
                           text (state_at_open E cfg st)) with
              | Ok _ => True
              | Err e => is_OSError e = true
              end).
Proof.
  destruct args as [| |cfg]; cbv zeta; cbn [aag].
  - cbn. split; [now left|]. split; [split; discriminate|].
    split; [now left | reflexivity].
  - cbn. split; [now right; right|]. split; [split; reflexivity|].
    split; [discriminate|].
    intros [H | (cfg & n & im & text & H & _)]; discriminate.
  - rewrite script_eq.
    destruct (level_number (log_level cfg)) as [n|] eqn:Hlevel.
    + fold (run E cfg st).
      destruct (main_block_status E cfg st) as [H01 Hiff]. cbv zeta in H01, Hiff.
      split; [destruct H01; auto|].
      split; [split; [destruct H01 as [H|H]; rewrite H; discriminate | discriminate]|].
      rewrite Hiff. split.
      * intros (im & text & H). right. exists cfg, n, im, text. auto.
      * intros [H | (cfg' & n' & im & text & Hcfg & _ & H)]; [discriminate|].
        injection Hcfg as <-. exists im, text. assumption.
    + cbn [fst exit_status]. split; [now right; left|].
      split; [split; discriminate|]. split; [discriminate|].
      intros [H | (cfg' & n' & im & text & Hcfg & Hn & _)]; [discriminate|].
      injection Hcfg as <-. congruence.
Qed.



(** ** The resizer on an image without width *)

(** X10: an image whose width is 0 makes the height computation divide by
    zero.  [resize_image] catches the ZeroDivisionError, logs it after the
    original size and returns None, for every library and target width;
    [convert] then ends on an uncaught TypeError. *)
Theorem resize_image_zero_width (E : Env) (cfg : Config) (self : AsciiArtConverter)
  (im : Image) (H : Z) (w : World E) :
  image self = Some im -> size im = (0, H) ->
  resize_image E self w
  = (Returns None,
     extend w [(DEBUG, Msg_og_size 0 H); (ERROR, Msg_resize_failed ZeroDivisionError)])
  /\ fst (convert E cfg self w) = Raises TypeError.
Proof.
  intros Him Hsize.
  assert (Hr : forall w0 : World E,
            resize_image E self w0
            = (Returns None,
               extend w0 [(DEBUG, Msg_og_size 0 H);
                          (ERROR, Msg_resize_failed ZeroDivisionError)])).
  { intros w0. unfold resize_image. unfold_prog. rewrite Him, Hsize. cbn.
    unfold extend. cbn. rewrite <- app_assoc. reflexivity. }
  split; [apply Hr|].
  destruct (convert_outcome E cfg self) as (o & ex & Hc & Hnone & _).
  rewrite Hc. cbn [fst]. apply (Hnone w). now rewrite Hr.
Qed.

(** An instance: an image of size 0x5. *)
Lemma resize_image_zero_width_witness :
  let cfg := Sample.config "in.png" "output" in
  let im := {| size := (0, 5); getdata := [] |} in
  let w := Sample.fresh Sample.empty in
  resize_image Sample.env (entered cfg im) w
  = (Returns None,
     extend w [(DEBUG, Msg_og_size 0 5); (ERROR, Msg_resize_failed ZeroDivisionError)])
  /\ fst (convert Sample.env cfg (entered cfg im) w) = Raises TypeError.
Proof.
  apply (resize_image_zero_width Sample.env (Sample.config "in.png" "output")
           (entered (Sample.config "in.png" "output") {| size := (0, 5); getdata := [] |})
           {| size := (0, 5); getdata := [] |} 5 (Sample.fresh Sample.empty));
    reflexivity.
Defined.

(** ** The output folder *)

(** X11: [create_output_directory] is idempotent and touches no file: when
    the folder is there, or its creation succeeds, a second call finds the
    folder, logs nothing and leaves the file system alone, and after the
    first call every file reads as before. *)
Theorem create_output_directory_idempotent (E : Env) (cfg : Config) (w : World E) :
  lawful E ->
  output_folder cfg <> EmptyString ->
  (os_path_exists E (output_folder cfg) (fs w) = false ->
   exists st', Path_mkdir E (output_folder cfg) (fs w) = (Ok tt, st')) ->
  let w1 := snd (create_output_directory E cfg w) in
  create_output_directory E cfg w1 = (Returns tt, w1)
  /\ os_path_exists E (output_folder cfg) (fs w1) = true
  /\ forall q, read_text E (fs w1) q = read_text E (fs w) q.
Proof.
  intros L Hne Hmk w1.
  assert (Hex : os_path_exists E (output_folder cfg) (fs w1) = true
                /\ forall q, read_text E (fs w1) q = read_text E (fs w) q).
  { subst w1. rewrite create_output_directory_eq.
    destruct (os_path_exists E (output_folder cfg) (fs w)) eqn:Hex.
    - cbn [snd]. split; [assumption | reflexivity].
    - destruct (Hmk eq_refl) as [st' Hst']. cbv zeta. rewrite Hst'. cbn [snd fs].
      split.
      + eapply (mkdir_exists E L); eassumption.
      + eapply (mkdir_keeps_files E L); eassumption. }
  destruct Hex as [Hex Hfiles].
  split; [|split; assumption].
  rewrite create_output_directory_eq, Hex. reflexivity.
Qed.

(** An instance: a nested folder that is absent at first. *)
Lemma create_output_directory_idempotent_witness :
  let cfg := Sample.config "in.png" "results/run1" in
  let w := Sample.fresh (Sample.holding "in.png" (Sample.Text "x")) in
  let w1 := snd (create_output_directory Sample.env cfg w) in
  create_output_directory Sample.env cfg w1 = (Returns tt, w1)
  /\ os_path_exists Sample.env (output_folder cfg) (fs w1) = true
  /\ forall q, read_text Sample.env (fs w1) q = read_text Sample.env (fs w) q.
Proof.
  apply (create_output_directory_idempotent Sample.env
           (Sample.config "in.png" "results/run1")
           (Sample.fresh (Sample.holding "in.png" (Sample.Text "x")))).
  - exact sample_lawful.
  - discriminate.
  - intros _. eexists. vm_compute. reflexivity.
Defined.

Lemma join_cons (c : ascii) (x : string) (xs : list string) :
  join "/"%string (String c x :: xs) = String c (join "/"%string (x :: xs)).
Proof. unfold join. cbn [String.concat]. now destruct xs. Qed.

Lemma split_last (s : string) :
  exists init last,
    split "/"%char s = init ++ [last]
    /\ contains "/"%char last = false
    /\ (contains "/"%char s = false -> init = [] /\ last = s)
    /\ (contains "/"%char s = true ->
        init <> []
        /\ s = String.append (join "/"%string init) (String "/"%char last)).
Proof.
  induction s as [|c s (init & last & Hsp & Hlast & Hno & Hyes)].
  - exists [], EmptyString. cbn. repeat split; auto; discriminate.
  - cbn [split contains]. rewrite (Ascii.eqb_sym "/"%char c).
    destruct (Ascii.eqb c "/"%char) eqn:Hc.
    + apply Ascii.eqb_eq in Hc. subst c. cbn [orb].
      exists (EmptyString :: init), last. rewrite Hsp.
      split; [reflexivity|]. split; [assumption|].
      split; [discriminate|]. intros _. split; [discriminate|].
      destruct (contains "/"%char s) eqn:Hs.
      * destruct (Hyes eq_refl) as [Hinit Heq].
        destruct init as [|x xs]; [now elim Hinit|].
        unfold join in *. cbn [String.concat String.append] in *.
        now rewrite <- Heq.
      * destruct (Hno eq_refl) as [-> ->]. reflexivity.
    + cbn [orb]. rewrite Hsp. destruct init as [|x xs].
      * exists [], (String c last). cbn [app].
        split; [reflexivity|].
        split; [cbn [contains]; now rewrite (Ascii.eqb_sym "/"%char c), Hc, Hlast|].
        split.
        -- intros Hs. destruct (Hno Hs) as [_ ->]. auto.
        -- intros Hs. destruct (Hyes Hs) as [Hinit _]. now elim Hinit.
      * exists (String c x :: xs), last. cbn [app].
        split; [reflexivity|]. split; [assumption|].
        split.
        -- intros Hs. destruct (Hno Hs) as [Hinit _]. discriminate.
        -- intros Hs. destruct (Hyes Hs) as [_ Heq]. split; [discriminate|].
           rewrite join_cons. cbn [String.append]. now rewrite <- Heq.
Qed.

(** X12: for an output path that holds a '.', the folder the script makes
    sure of is the path without its last '/'-separated component: the path
    is that folder, a '/', and a last component free of '/'; and when the
    path has no '/' at all the folder is the empty string. *)
Theorem output_folder_is_parent (cfg : Config) :
  contains "."%char (output_path cfg) = true ->
  exists last,
    contains "/"%char last = false
    /\ if contains "/"%char (output_path cfg)
       then output_path cfg
            = String.append (output_folder cfg) (String "/"%char last)
       else output_folder cfg = EmptyString /\ last = output_path cfg.
Proof.
  intros Hdot. unfold output_folder. rewrite Hdot.
  destruct (split_last (output_path cfg)) as (init & last & Hsp & Hlast & Hno & Hyes).
  rewrite Hsp. unfold but_last. rewrite removelast_last.
  exists last. split; [assumption|].
  destruct (contains "/"%char (output_path cfg)).
  - now destruct (Hyes eq_refl).
  - destruct (Hno eq_refl) as [-> ->]. split; reflexivity.
Qed.

(** An instance: the folder of out/v1.2/art is out/v1.2. *)
Lemma output_folder_is_parent_witness :
  exists last,
    contains "/"%char last = false
    /\ if contains "/"%char (output_path (Sample.config "in.png" "out/v1.2/art"))
       then output_path (Sample.config "in.png" "out/v1.2/art")
            = String.append (output_folder (Sample.config "in.png" "out/v1.2/art"))
                (String "/"%char last)
       else output_folder (Sample.config "in.png" "out/v1.2/art") = EmptyString
            /\ last = output_path (Sample.config "in.png" "out/v1.2/art").
Proof.
  apply (output_folder_is_parent (Sample.config "in.png" "out/v1.2/art")).
  reflexivity.
Defined.

(** ** A run that succeeds *)

(** X13: the whole pipeline.  When the image opens, the library resizes
    it to 120 columns and the computed height h, and converts the result
    to greyscale, the conversion returns a text of h lines of exactly 120
    characters, each line closed by a newline; the character at column x of
    line y is the ramp character of the greyscale pixel at (x, y); and when
    the write succeeds the run returns (exit status 0) and the target file
    holds that text. *)
Theorem run_writes_the_picture (E : Env) (cfg : Config) (st : FS E)
  (im resized grey : Image) (h : Z) :
  lawful E ->
  Image_open E (image_path cfg) (state_at_open E cfg st) = Ok im ->
  untruncated_height 120 (height im) (width im) = Ok h ->
  Image_resize E im (120, h) = Ok resized ->
  Image_convert E resized "L"%string = Ok grey ->
  let target := os_path_join (output_path cfg) (output_file_name cfg) in
  exists text,
    (forall w, fst (convert E cfg (entered cfg im) w) = Returns text)
    /\ len text = 121 * h
    /\ (forall y, 0 <= y < h ->
        String.get (Z.to_nat (y * 121 + 120)) text = Some LF
        /\ forall x, 0 <= x < 120 ->
           exists v c,
             pixel_at grey x y = Some (Lum v)
             /\ nth_error ASCII_CHARS (Z.to_nat (v / 25)) = Some (String c EmptyString)
             /\ String.get (Z.to_nat (y * 121 + x)) text = Some c)
    /\ (forall st',
        open_w_write E target text (state_at_open E cfg st) = (Ok tt, st') ->
        fst (run E cfg st) = Returns tt
        /\ exit_status (fst (run E cfg st)) = 0
        /\ read_text E (fs (snd (run E cfg st))) target = Some text).
Proof.
  intros L Hopen Hh Hres Hconv target.
  pose proof (resize_size E L _ _ _ Hres) as Hsz.
  pose proof (convert_size E L _ _ Hconv) as Hsz'. rewrite Hsz in Hsz'.
  destruct (convert_greyscale E L _ _ Hconv) as [Hlen Hok].
  unfold width, height in Hlen. rewrite Hsz' in Hlen. cbn [fst snd] in Hlen.
  assert (Hh0 : 0 <= h) by lia.
  destruct (for_pixels_ok (getdata grey) EmptyString Hok) as (cs & Hpix & Hall).
  cbn [String.append] in Hpix.
  pose proof (Forall2_length _ _ _ Hall) as Hcs.
  destruct (reflow_grid (string_of_list_ascii cs) 120 (Z.to_nat h))
    as (text & Hflow & Htl & Hgrid).
  { lia. }
  { rewrite length_string_of_list_ascii, <- Hcs. lia. }
  change (Z.of_nat 120) with 120 in Hflow.
  (* the conversion *)
  assert (Hc : forall w, fst (convert E cfg (entered cfg im) w) = Returns text).
  { destruct (convert_outcome E cfg (entered cfg im)) as (o & ex & Hc & _ & Hsome).
    intros w. rewrite Hc. cbn [fst].
    assert (Hr : fst (resize_image E (entered cfg im) w) = Returns (Some resized)).
    { destruct (size im) as [W H] eqn:Hsize.
      unfold width, height in Hh. rewrite Hsize in Hh. cbn [fst snd] in Hh.
      rewrite (resize_image_eq E (entered cfg im) im W H h w eq_refl Hsize Hh).
      cbn [target_width entered]. rewrite Hres. reflexivity. }
    specialize (Hsome w resized Hr). rewrite Hconv, Hpix in Hsome.
    unfold width in Hsome. rewrite Hsz' in Hsome. cbn [fst] in Hsome.
    now rewrite Hflow in Hsome. }
  exists text. split; [assumption|].
  split; [unfold len; lia|].
  split.
  - intros y Hy. destruct (Hgrid (Z.to_nat y)) as [Hnl Hch]; [lia|]. split.
    + replace (Z.to_nat (y * 121 + 120)) with (Z.to_nat y * 121 + 120)%nat by lia.
      assumption.
    + intros x Hx. unfold pixel_at, width. rewrite Hsz'. cbn [fst].
      assert (Hi : (Z.to_nat (y * 120 + x) < List.length (getdata grey))%nat) by nia.
      destruct (nth_error (getdata grey) (Z.to_nat (y * 120 + x))) as [p|] eqn:Hp;
        [|apply nth_error_None in Hp; lia].
      destruct (Forall2_nth_error_l _ _ _ Hall _ _ Hp) as (c & Hc' & v & -> & _ & Hramp).
      exists v, c. split; [reflexivity|]. split; [assumption|].
      replace (Z.to_nat (y * 121 + x)) with (Z.to_nat y * 121 + Z.to_nat x)%nat by lia.
      rewrite (Hch (Z.to_nat x)) by lia.
      rewrite get_string_of_list_ascii.
      replace (Z.to_nat y * 120 + Z.to_nat x)%nat with (Z.to_nat (y * 120 + x)) by lia.
      assumption.
  - intros st' Hwr.
    pose proof (run_shape E cfg st) as Hs. cbv zeta in Hs. fold target in Hs.
    rewrite Hopen in Hs. destruct Hs as (o & ex & Hce & Ho).
    specialize (Hc (world_at_open E cfg st)). rewrite Hce in Hc. cbn [fst] in Hc.
    subst o. rewrite Hwr in Ho. cbn [fst snd] in Ho. destruct Ho as [Hfs Hout].
    rewrite Hout, Hfs. split; [reflexivity|]. split; [reflexivity|].
    eapply (write_read E L). eassumption.
Qed.

(** An instance: a white 4x2 picture becomes 42 lines of 120 dots. *)
Lemma run_writes_the_picture_witness :
  let cfg := Sample.config "in.png" "output" in
  let st := Sample.holding "in.png" (Sample.Picture (Sample.uniform 4 2 255)) in
  let grey := {| size := (120, 42); getdata := repeat (Lum 255) (Z.to_nat 5040) |} in
  let target := os_path_join (output_path cfg) (output_file_name cfg) in
  exists text,
    (forall w, fst (convert Sample.env cfg (entered cfg (Sample.uniform 4 2 255)) w)
               = Returns text)
    /\ len text = 121 * 42
    /\ (forall y, 0 <= y < 42 ->
        String.get (Z.to_nat (y * 121 + 120)) text = Some LF
        /\ forall x, 0 <= x < 120 ->
           exists v c,
             pixel_at grey x y = Some (Lum v)
             /\ nth_error ASCII_CHARS (Z.to_nat (v / 25)) = Some (String c EmptyString)
             /\ String.get (Z.to_nat (y * 121 + x)) text = Some c)
    /\ (forall st',
        open_w_write Sample.env target text (state_at_open Sample.env cfg st) = (Ok tt, st') ->
        fst (run Sample.env cfg st) = Returns tt
        /\ exit_status (fst (run Sample.env cfg st)) = 0
        /\ read_text Sample.env (fs (snd (run Sample.env cfg st))) target = Some text).
Proof.
  apply (run_writes_the_picture Sample.env (Sample.config "in.png" "output")
           (Sample.holding "in.png" (Sample.Picture (Sample.uniform 4 2 255)))
           (Sample.uniform 4 2 255) (Sample.uniform 120 42 255)
           {| size := (120, 42); getdata := repeat (Lum 255) (Z.to_nat 5040) |} 42).
  - exact sample_lawful.
  - reflexivity.
  - vm_compute. reflexivity.
  - vm_compute. reflexivity.
  - vm_compute. reflexivity.
Defined.

(** A main block that ends with status 0 and has logged no error has
    written the text. *)
Lemma main_block_clean (E : Env) (cfg : Config) (st : FS E) :
  lawful E ->
  let final := run E cfg st in
  let target := os_path_join (output_path cfg) (output_file_name cfg) in
  exit_status (fst final) = 0 ->
  existsb is_error (logged (snd final)) = false ->
  exists im text,
    Image_open E (image_path cfg) (state_at_open E cfg st) = Ok im
    /\ fst (convert E cfg (entered cfg im) (world_at_open E cfg st)) = Returns text
    /\ read_text E (fs (snd final)) target = Some text.
Proof.
  intros L final target Hstatus Hclean. subst final.
  destruct (Image_open E (image_path cfg) (state_at_open E cfg st)) as [im|e] eqn:Hopen.
  - rewrite (run_opened E cfg st im Hopen) in Hstatus, Hclean |- *.
    cbv zeta in Hstatus, Hclean |- *. cbn [fst snd extend fs logged] in *.
    destruct (convert_returns_or_raises E cfg (entered cfg im) (world_at_open E cfg st))
      as (o & ex & Hc & Ho).
    unfold block, bind in Hstatus, Hclean |- *. rewrite Hc in Hstatus, Hclean |- *.
    destruct Ho as [[text ->] | [e ->]]; [|discriminate].
    exists im, text. split; [reflexivity|]. split; [now rewrite Hc|].
    rewrite write_ascii_to_file_eq in Hstatus, Hclean |- *.
    cbv zeta in Hstatus, Hclean |- *. cbn [extend fs] in Hstatus, Hclean |- *.
    fold (state_at_open E cfg st) in Hstatus, Hclean |- *.
    fold target in Hstatus, Hclean |- *.
    destruct (open_w_write E target text (state_at_open E cfg st)) as [[[]|e] st'] eqn:Hwr.
    + cbn [snd fs]. eapply (write_read E L). eassumption.
    + destruct (is_OSError e); [|discriminate].
      cbn [snd logged] in Hclean.
      assert (Hin : existsb is_error
                      ((logged
                          (extend
                             (extend
                                (extend (world_at_open E cfg st)
                                   [(INFO, Msg_loading (image_path cfg))]) ex)
                             [(INFO, Msg_new_ascii (output_path cfg) (output_file_name cfg))])
                        ++ [(ERROR, Msg_write_failed e)])
                       ++ (INFO, Msg_closing)
                          :: match Image_close E im with
                             | Ok _ => []
                             | Err e0 => [(ERROR, Msg_close_failed e0)]
                             end) = true).
      { apply existsb_exists. exists (ERROR, Msg_write_failed e).
        split; [find_record | reflexivity]. }
      congruence.
  - pose proof (run_cases E cfg st) as Hrun. cbv zeta in Hrun.
    fold (state_at_open E cfg st) in Hrun. rewrite Hopen in Hrun.
    rewrite Hrun in Hstatus. destruct (is_FileNotFoundError e); discriminate.
Qed.

Lemma emitted_errors (n : Z) (l : list log_record) :
  n <= levelno ERROR ->
  existsb is_error (emitted n l) = existsb is_error l.
Proof.
  intros Hn. unfold emitted.
  induction l as [|[lv m] l IH]; [reflexivity|].
  cbn [filter existsb fst]. destruct lv; unfold is_error at 2; cbn [fst].
  - destruct (n <=? levelno DEBUG); cbn [existsb orb]; [|exact IH].
    unfold is_error at 1. cbn [fst orb]. exact IH.
  - destruct (n <=? levelno INFO); cbn [existsb orb]; [|exact IH].
    unfold is_error at 1. cbn [fst orb]. exact IH.
  - destruct (n <=? levelno ERROR) eqn:E; [|apply Z.leb_gt in E; lia].
    reflexivity.
Qed.

(** X14: status and log together tell a written file.  When the command
    line parses and the log level is a level name up to ERROR, so that the
    root logger emits the ERROR records, a run of the script that ends with
    exit status 0 and has emitted no ERROR record has opened the image,
    converted it to a text and written it: the target file holds the
    text. *)
Theorem clean_run_has_written (E : Env) (cfg : Config) (st : FS E) (n : Z) :
  lawful E ->
  level_number (log_level cfg) = Some n ->
  n <= levelno ERROR ->
  let final := aag E (Parsed cfg) {| logged := []; fs := st |} in
  let target := os_path_join (output_path cfg) (output_file_name cfg) in
  exit_status (fst final) = 0 ->
  existsb is_error (emitted n (logged (snd final))) = false ->
  exists im text,
    Image_open E (image_path cfg) (state_at_open E cfg st) = Ok im
    /\ fst (convert E cfg (entered cfg im) (world_at_open E cfg st)) = Returns text
    /\ read_text E (fs (snd final)) target = Some text.
Proof.
  intros L Hlevel Hn final target. subst final. cbn [aag].
  rewrite script_eq, Hlevel. fold (run E cfg st).
  rewrite (emitted_errors n _ Hn).
  apply (main_block_clean E cfg st L).
Qed.

(** An instance: a white 4x2 picture, converted and written at level INFO. *)
Lemma clean_run_has_written_witness :
  let cfg := Sample.config "in.png" "output" in
  let st := Sample.holding "in.png" (Sample.Picture (Sample.uniform 4 2 255)) in
  let final := aag Sample.env (Parsed cfg) (Sample.fresh st) in
  let target := os_path_join (output_path cfg) (output_file_name cfg) in
  exists im text,
    Image_open Sample.env (image_path cfg) (state_at_open Sample.env cfg st) = Ok im
    /\ fst (convert Sample.env cfg (entered cfg im) (world_at_open Sample.env cfg st))
       = Returns text
    /\ read_text Sample.env (fs (snd final)) target = Some text.
Proof.
  apply (clean_run_has_written Sample.env (Sample.config "in.png" "output")
           (Sample.holding "in.png" (Sample.Picture (Sample.uniform 4 2 255))) 20).
  - exact sample_lawful.
  - reflexivity.
  - cbn. lia.
  - vm_compute. reflexivity.
  - vm_compute. reflexivity.
Defined.

(** ** The path of the output file *)

(** X15: the file is not always written under the output path.  A file
    name that starts with '/' replaces the output path in
    [os.path.join], so the text goes to the file name itself, while the
    record logged before the write still names the output path and the
    file name. *)
Theorem absolute_file_name_leaves_output_path (E : Env) (cfg : Config)
  (text name : string) (w : World E) (st' : FS E) :
  lawful E ->
  startswith name "/"%char = true ->
  open_w_write E name text (fs w) = (Ok tt, st') ->
  let w' := snd (write_ascii_to_file E cfg text (Some name) w) in
  fst (write_ascii_to_file E cfg text (Some name) w) = Returns tt
  /\ fs w' = st'
  /\ read_text E (fs w') name = Some text
  /\ logged w' = logged w ++ [(INFO, Msg_new_ascii (output_path cfg) name)].
Proof.
  intros L Habs Hwr w'. subst w'.
  rewrite write_ascii_to_file_eq. cbv zeta.
  unfold os_path_join. rewrite Habs, Hwr. cbn [fst snd fs logged extend].
  repeat split. eapply (write_read E L). eassumption.
Qed.

(** An instance: the file name /art.txt with the output path output. *)
Lemma absolute_file_name_leaves_output_path_witness :
  let cfg := Sample.config "in.png" "output" in
  let w := Sample.fresh Sample.empty in
  let w' := snd (write_ascii_to_file Sample.env cfg "@@" (Some "/art.txt"%string) w) in
  fst (write_ascii_to_file Sample.env cfg "@@" (Some "/art.txt"%string) w) = Returns tt
  /\ fs w' = {| Sample.dirs := []; Sample.files := [(["art.txt"%string], Sample.Text "@@")] |}
  /\ read_text Sample.env (fs w') "/art.txt" = Some "@@"%string
  /\ logged w' = logged w ++ [(INFO, Msg_new_ascii (output_path cfg) "/art.txt")].
Proof.
  apply (absolute_file_name_leaves_output_path Sample.env
           (Sample.config "in.png" "output") "@@" "/art.txt"
           (Sample.fresh Sample.empty)).
  - exact sample_lawful.
  - reflexivity.
  - reflexivity.
Defined.

(** ** The round trip of the layout *)

Lemma ramp_character_is_no_newline (c : ascii) :
  In (String c EmptyString) ASCII_CHARS -> Ascii.eqb LF c = false.
Proof.
  unfold ASCII_CHARS. cbn [In].
  intros H. repeat (destruct H as [H|H]; [injection H as <-; reflexivity|]).
  contradiction.
Qed.

Lemma ramp_string_has_no_newline (cs : list ascii) :
  Forall (fun c => In (String c EmptyString) ASCII_CHARS) cs ->
  contains LF (string_of_list_ascii cs) = false.
Proof.
  induction 1 as [|c cs Hc _ IH]; [reflexivity|].
  cbn [string_of_list_ascii contains].
  now rewrite (ramp_character_is_no_newline c Hc), IH.
Qed.

Lemma length_rows {A : Type} (row : A -> string) (l : list A) :
  String.length (concat_all (map (fun i => String.append (row i) newline) l))
  = (String.length (concat_all (map row l)) + List.length l)%nat.
Proof.
  induction l as [|i l IH]; [reflexivity|].
  unfold concat_all in *. cbn [map fold_right List.length].
  rewrite !length_append, IH. cbn [String.length newline]. lia.
Qed.

Lemma rows_count (n w : Z) :
  0 <= n -> 1 <= w ->
  (if 0 <? n then (n - 0 - 1) / w + 1 else 0) = (n + w - 1) / w.
Proof.
  intros Hn Hw. destruct (0 <? n) eqn:E.
  - rewrite Z.sub_0_r.
    replace (n + w - 1) with (n - 1 + 1 * w) by ring.
    now rewrite Z.div_add by lia.
  - apply Z.ltb_ge in E. assert (n = 0) by lia. subst n.
    symmetry. apply Z.div_small. lia.
Qed.

(** C5: for every flat character string [s], that is every string the
    ascii mapper returns, and every width [w >= 1], the layout loop of
    [convert] returns a text made of the consecutive chunks of [w]
    characters of [s], each followed by a newline (the last chunk as it is
    when it is shorter), and removing the newline characters of that text
    gives [s] back. *)
Theorem reflow_round_trip (E : Env) (x : option Image) (w0 w1 : World E)
  (s : string) (w : Z) :
  convert_pixel_to_ascii E x w0 = (Returns (Some s), w1) ->
  1 <= w ->
  exists text,
    reflow s w = Ok text
    /\ strip_newlines text = s
    /\ text
       = concat_all
           (map (fun k =>
                   String.append (substring (k * Z.to_nat w) (Z.to_nat w) s) newline)
              (seq 0 (Z.to_nat ((len s + w - 1) / w))))
    /\ len text = len s + (len s + w - 1) / w.
Proof.
  intros Hmap Hw.
  assert (Hs : contains LF s = false).
  { rewrite convert_pixel_to_ascii_eq in Hmap. destruct x as [im|]; [|discriminate].
    destruct (for_pixels_cases (getdata im) EmptyString)
      as [[_ (cs & Hpix & _ & Hcs)] | [_ [Herr | Herr]]];
      [|rewrite Herr in Hmap; discriminate..].
    rewrite Hpix in Hmap. injection Hmap as <- _.
    cbn [String.append]. now apply ramp_string_has_no_newline. }
  pose proof (rows_cover (len s) w (len_nonneg s) Hw) as Hcover.
  rewrite (reflow_exact s w Hw).
  rewrite rows_count in * by (auto using len_nonneg).
  assert (Hrows : 0 <= (len s + w - 1) / w) by (apply Z.div_pos; pose proof (len_nonneg s); lia).
  set (n := (len s + w - 1) / w) in *.
  assert (Hchunks : concat_all
                      (map (fun k => substring (k * Z.to_nat w) (Z.to_nat w) s)
                         (seq 0 (Z.to_nat n))) = s).
  { apply chunks_concat. unfold len in Hcover. nia. }
  eexists. split; [reflexivity|]. split; [|split; [reflexivity|]].
  - rewrite (strip_newlines_rows (fun k => substring (k * Z.to_nat w) (Z.to_nat w) s)).
    rewrite Hchunks. now apply strip_newlines_id.
  - unfold len.
    rewrite (length_rows (fun k => substring (k * Z.to_nat w) (Z.to_nat w) s)).
    rewrite Hchunks, length_seq. lia.
Qed.

(** An instance: the five characters of a five-pixel image in rows of two,
    the last row with a single character. *)
Lemma reflow_round_trip_witness :
  exists text,
    reflow "@#$%?"%string 2 = Ok text
    /\ strip_newlines text = "@#$%?"%string
    /\ text
       = concat_all
           (map (fun k =>
                   String.append (substring (k * Z.to_nat 2) (Z.to_nat 2) "@#$%?") newline)
              (seq 0 (Z.to_nat ((len "@#$%?" + 2 - 1) / 2))))
    /\ len text = len "@#$%?" + (len "@#$%?" + 2 - 1) / 2.
Proof.
  apply (reflow_round_trip Sample.env
           (Some {| size := (5, 1); getdata := [Lum 0; Lum 25; Lum 50; Lum 75; Lum 100] |})
           (Sample.fresh Sample.empty)
           (snd (convert_pixel_to_ascii Sample.env
                   (Some {| size := (5, 1);
                            getdata := [Lum 0; Lum 25; Lum 50; Lum 75; Lum 100] |})
                   (Sample.fresh Sample.empty)))).
  - reflexivity.
  - lia.
Defined.

(** ** The output directory and the write, in a run *)



